(** * UMAI payment receiver: the orchestrator of [lib/receiver.js] and the
    example ledger implementation ([example/server.js] with its PostgreSQL
    schema), embedded as state-passing functions.

    Amounts and balances are the schema's [numeric(_,2)] values, kept as an
    integer number of hundredths.  Times are points of one line counted in
    microseconds, the resolution of [timestamptz]; a [Date] the driver reads
    from a column lies on a whole millisecond.
    Every asynchronous method calls back exactly once, so a method is a
    function from the store to its callback arguments and the new store. *)

From stdpp Require Import base gmap strings list.
From Stdlib Require Import ZArith Lia.

Local Open Scope Z_scope.

(** ** JavaScript values and objects *)

(** The values a parsed JSON body, a route parameter or a query string can
    hold, plus the [Date] the handlers store back into [params].  A number is
    in the documented [0.00] format: [JNum c] is [c / 100].  Arrays and nested
    objects are opaque. *)
Inductive jsval :=
  | JNull
  | JBool (b : bool)
  | JNum (hundredths : Z)
  | JStr (s : string)
  | JDate (t : Z)
  | JObject.

#[global] Instance jsval_eq_dec : EqDecision jsval.
Proof. solve_decision. Defined.

(** A plain object; a missing key reads as [undefined], here [None]. *)
Abbreviation Object := (gmap string jsval).

(** [!v] is [negb (truthy v)]. *)
Definition truthy (v : option jsval) : bool :=
  match v with
  | None => false
  | Some JNull => false
  | Some (JBool b) => b
  | Some (JNum n) => negb (n =? 0)
  | Some (JStr s) => negb (String.eqb s "")
  | Some (JDate _) => true
  | Some JObject => true
  end.

(** [_.merge({}, a, b)] on the top level: a key of [b] wins over the same key
    of [a]. *)
Definition merge2 (a b : Object) : Object := b ∪ a.

(** ** Errors *)

(** A JavaScript [Error] as the [pg] driver raises it.  [code] holds
    [parseInt(err.code)], with [None] for [NaN]. *)
Record Error := mkError {
  name : string;
  message : string;
  code : option Z;
  constraint : option string
}.

(** [Error.prototype.toString]. *)
Definition toString (err : Error) : string :=
  if String.eqb (name err) "" then message err
  else if String.eqb (message err) "" then name err
  else name err +:+ ": " +:+ message err.

(** [isDuplicateIdConstraint] *)
Definition isDuplicateIdConstraint (err : Error) : bool :=
  match code err, constraint err with
  | Some c, Some k => (c =? 23505) && String.eqb k "transactions_external_id_idx"
  | _, _ => false
  end.

(** ** Status dictionary *)

(** Modelled from the spec: [lib/status-map.js] is not among the sources; the
    names are the ones [receiver.js] uses and the numbers the HTTP codes its
    comments give ([200 "OK"], [202 "Accepted"], [403 "Forbidden"],
    [404 "Not Found"], [500 "Internal Server Error"]). *)
Module STATUS.
Definition OK : Z := 200.
Definition ACCEPTED : Z := 202.
Definition BAD_REQUEST : Z := 400.
Definition FORBIDDEN : Z := 403.
Definition NOT_FOUND : Z := 404.
Definition UNPROCESSABLE_ENTITY : Z := 422.
Definition INTERNAL_SERVER_ERROR : Z := 500.
Definition NOT_IMPLEMENTED : Z := 501.
End STATUS.

(** ** The schema *)

Inductive account_status := active | suspended | deleted.

Inductive transaction_status :=
  initialized | pending | processing | success | failure | cancelled.

#[global] Instance account_status_eq_dec : EqDecision account_status.
Proof. solve_decision. Defined.

#[global] Instance transaction_status_eq_dec : EqDecision transaction_status.
Proof. solve_decision. Defined.

(** A row of ["accounts"]. *)
Record Account := mkAccount {
  acc_id : Z;
  acc_requisite : string;
  full_name : string;
  acc_status : account_status;
  balance : Z
}.

(** A row of ["transactions"]; the nullable columns are options. *)
Record Row := mkRow {
  row_id : Z;
  external_id : string;
  account_id : Z;
  requisite : string;
  amount : Z;
  status : transaction_status;
  row_message : option string;
  row_initialized : Z;
  completed : option Z;
  row_cancelled : option Z
}.

(** The store: the two committed tables, the [bigserial] behind
    ["transactions"."id"], the clock [NOW()] reads, and the outcome of the
    coming round trips to the server ([Some err] makes that round trip fail
    with [err]; an exhausted list means no more failures). *)
Record World := mkWorld {
  accounts : list Account;
  transactions : list Row;
  transactions_id_seq : Z;
  clock : Z;
  faults : list (option Error)
}.

Definition with_faults (fs : list (option Error)) (w : World) : World :=
  mkWorld (accounts w) (transactions w) (transactions_id_seq w) (clock w) fs.

Definition with_tables (a : list Account) (t : list Row) (w : World) : World :=
  mkWorld a t (transactions_id_seq w) (clock w) (faults w).

(** One round trip: it fails when the next scheduled outcome says so. *)
Definition round_trip (w : World) : option Error * World :=
  match faults w with
  | [] => (None, w)
  | f :: fs => (f, with_faults fs w)
  end.

(** ** Binding JavaScript values to SQL parameters *)

(** What the platform under the program computes: [new Date(v).getTime()]
    ([None] for [NaN]), the text the driver sends for a value that is neither
    a string nor [null], and the server's input routines for [numeric] (at
    scale 2, in hundredths) and [timestamp] ([None]: the text is refused). *)
Record Platform := mkPlatform {
  Date_getTime : jsval → option Z;
  text_out : jsval → string;
  numeric_in : string → option Z;
  timestamp_in : string → option Z
}.

(** A bound parameter: SQL [NULL], a text the server refuses, or a value. *)
Inductive bound (A : Type) :=
  | SqlNull
  | SqlInvalid (err : Error)
  | SqlVal (a : A).
Arguments SqlNull {A}.
Arguments SqlInvalid {A} err.
Arguments SqlVal {A} a.

Module PgError.
(** [parseInt] stops at the first non-digit, so SQLSTATE [22P02] reads 22
    and [25P02] reads 25. *)
Definition invalid_text_representation : Error :=
  mkError "error" "invalid input syntax" (Some 22) None.
Definition string_data_right_truncation : Error :=
  mkError "error" "value too long for type character varying" (Some 22001) None.
Definition numeric_value_out_of_range : Error :=
  mkError "error" "numeric field overflow" (Some 22003) None.
Definition not_null_violation : Error :=
  mkError "error" "null value violates not-null constraint" (Some 23502) None.
Definition foreign_key_violation : Error :=
  mkError "error" "insert violates foreign key constraint" (Some 23503)
          (Some "transactions_account_id_fkey").
Definition unique_violation : Error :=
  mkError "error" "duplicate key value violates unique constraint" (Some 23505)
          (Some "transactions_external_id_idx").
Definition check_violation (k : string) : Error :=
  mkError "error" "new row violates check constraint" (Some 23514) (Some k).
Definition in_failed_sql_transaction : Error :=
  mkError "error" "current transaction is aborted" (Some 25) None.
End PgError.

Section Binding.
Context (P : Platform).

Definition of_input {A} (r : option A) : bound A :=
  match r with
  | Some a => SqlVal a
  | None => SqlInvalid PgError.invalid_text_representation
  end.

(** A [varchar] parameter; [None] is [NULL]. *)
Definition sql_text (v : option jsval) : option string :=
  match v with
  | None | Some JNull => None
  | Some (JStr s) => Some s
  | Some v => Some (text_out P v)
  end.

(** A [numeric] parameter, before any precision is applied. *)
Definition sql_numeric (v : option jsval) : bound Z :=
  match v with
  | None | Some JNull => SqlNull
  | Some (JNum c) => SqlVal c
  | Some (JStr s) => of_input (numeric_in P s)
  | Some v => of_input (numeric_in P (text_out P v))
  end.

(** A [timestamp] parameter. *)
Definition sql_timestamp (v : option jsval) : bound Z :=
  match v with
  | None | Some JNull => SqlNull
  | Some (JDate t) => SqlVal t
  | Some (JStr s) => of_input (timestamp_in P s)
  | Some v => of_input (timestamp_in P (text_out P v))
  end.
End Binding.

(** ** Connections and transactions ([example/db/index.js]) *)

(** [exports.connect]: [pg.connect] calls back with an error or a client. *)
Definition connect (w : World) : option Error * World := round_trip w.

(** An open transaction: the time [NOW()] reports, the tables as the
    transaction sees them, and whether a statement has failed in it. *)
Record Txn := mkTxn {
  txn_now : Z;
  txn_accounts : list Account;
  txn_transactions : list Row;
  txn_failed : bool
}.

Definition failed (txn : Txn) : Txn :=
  mkTxn (txn_now txn) (txn_accounts txn) (txn_transactions txn) true.

(** [exports.transaction]: connect, then [BEGIN]; either can fail.  The clock
    moves on after each [BEGIN]. *)
Definition db_transaction (w : World) : (Error + Txn) * World :=
  match connect w with
  | (Some err, w) => (inl err, w)
  | (None, w) =>
    match round_trip w with
    | (Some err, w) => (inl err, w)
    | (None, w) =>
      (inr (mkTxn (clock w) (accounts w) (transactions w) false),
       mkWorld (accounts w) (transactions w) (transactions_id_seq w)
               (clock w + 1) (faults w))
    end
  end.

(** [txn.commit]: a failed round trip commits nothing; on a transaction in
    which a statement failed the server rolls back and reports no error. *)
Definition txn_commit (txn : Txn) (w : World) : option Error * World :=
  match round_trip w with
  | (Some err, w) => (Some err, w)
  | (None, w) =>
    if txn_failed txn then (None, w)
    else (None, with_tables (txn_accounts txn) (txn_transactions txn) w)
  end.

(** [txn.abort]: [ROLLBACK]; the callers ignore its outcome. *)
Definition txn_abort (txn : Txn) (w : World) : World := snd (round_trip w).

(** A statement inside a transaction: the round trip may fail, a transaction
    that has already failed refuses it, and an error marks the transaction
    failed.  The statement sees the world too: a sequence is not
    transactional. *)
Definition txn_query {A} (q : Txn → World → (Error + A * Txn) * World)
    (txn : Txn) (w : World) : (Error + A) * Txn * World :=
  match round_trip w with
  | (Some err, w) => (inl err, failed txn, w)
  | (None, w) =>
    if txn_failed txn then (inl PgError.in_failed_sql_transaction, txn, w)
    else match q txn w with
         | (inl err, w) => (inl err, failed txn, w)
         | (inr (a, txn), w) => (inr a, txn, w)
         end
  end.

(** A statement on a plain client, reading the committed tables. *)
Definition client_query {A} (q : World → Error + A) (w : World)
  : (Error + A) * World :=
  match round_trip w with
  | (Some err, w) => (inl err, w)
  | (None, w) => (q w, w)
  end.

(** ** The statements the example sends *)

(** [numeric(p,2)] holds less than [10 ^ p] hundredths in absolute value. *)
Definition numeric_fits (p : Z) (c : Z) : bool := Z.abs c <? 10 ^ p.

(** [varchar(n)] refuses a longer text. *)
Definition too_long (n : nat) (s : option string) : bool :=
  match s with
  | Some s => (n <? String.length s)%nat
  | None => false
  end.

(** [SELECT ... FROM "accounts" WHERE "requisite" = $1]; nothing equals
    [NULL]. *)
Definition accounts_by_requisite (r : option string) (l : list Account)
  : list Account :=
  match r with
  | Some r => filter (λ a, acc_requisite a = r) l
  | None => []
  end.

(** [SELECT ... FROM "transactions" WHERE "external_id" = $1] *)
Definition transactions_by_external_id (e : option string) (l : list Row)
  : list Row :=
  match e with
  | Some e => filter (λ r, external_id r = e) l
  | None => []
  end.

(** The row [INSERT INTO "transactions" (...) VALUES ($1, $2, $3,
    $4::numeric(8,2), 'success', NOW())] stores with key [k], or the error
    the schema raises: a text too long for its [varchar], an amount the
    server cannot read, a missing value, an amount outside [numeric(8,2)],
    then [CHECK ("amount" > 0.00)], the unique index on ["external_id"] and
    the foreign key to ["accounts"]. *)
Definition new_transaction (k now : Z) (e : option string) (a : Z)
    (r : option string) (amt : bound Z) (accs : list Account) (rows : list Row)
  : Error + Row :=
  if too_long 24 e then inl PgError.string_data_right_truncation
  else if too_long 32 r then inl PgError.string_data_right_truncation
  else match e, r, amt with
  | _, _, SqlInvalid err => inl err
  | Some e, Some r, SqlVal c =>
    if negb (numeric_fits 8 c) then inl PgError.numeric_value_out_of_range
    else if negb (0 <? c)
    then inl (PgError.check_violation "transactions_amount_check")
    else if bool_decide (transactions_by_external_id (Some e) rows ≠ [])
    then inl PgError.unique_violation
    else if bool_decide (filter (λ x, acc_id x = a) accs = [])
    then inl PgError.foreign_key_violation
    else inr (mkRow k e a r c success None now (Some now) None)
  | _, _, _ => inl PgError.not_null_violation
  end.

(** The [INSERT] of [process].  An amount the server cannot read is refused
    when the parameters are bound; otherwise the sequence hands out a key,
    and keeps it handed out whatever happens to the row. *)
Definition INSERT_transaction (e : option string) (a : Z) (r : option string)
    (amt : bound Z) (txn : Txn) (w : World) : (Error + unit * Txn) * World :=
  match amt with
  | SqlInvalid err => (inl err, w)
  | _ =>
    let k := transactions_id_seq w + 1 in
    let w := mkWorld (accounts w) (transactions w) k (clock w) (faults w) in
    match new_transaction k (txn_now txn) e a r amt
                          (txn_accounts txn) (txn_transactions txn) with
    | inl err => (inl err, w)
    | inr row =>
      (inr ((), mkTxn (txn_now txn) (txn_accounts txn)
                      (txn_transactions txn ++ [row]) false), w)
    end
  end.

(** One account under [SET "balance" = ("balance" op $1::numeric(8,2))]: the
    column is [numeric(12,2)] with [CHECK ("balance" >= 0.00)]. *)
Definition set_balance (op : Z → Z → Z) (c : Z) (acc : Account)
  : Error + Account :=
  let b := op (balance acc) c in
  if negb (numeric_fits 12 b) then inl PgError.numeric_value_out_of_range
  else if b <? 0 then inl (PgError.check_violation "accounts_balance_check")
  else inr (mkAccount (acc_id acc) (acc_requisite acc) (full_name acc)
                      (acc_status acc) b).

(** ... [WHERE "id" = $2], over the whole table. *)
Fixpoint update_accounts (op : Z → Z → Z) (c : Z) (a : Z) (l : list Account)
  : Error + list Account :=
  match l with
  | [] => inr []
  | acc :: l =>
    match (if decide (acc_id acc = a) then set_balance op c acc else inr acc) with
    | inl err => inl err
    | inr acc =>
      match update_accounts op c a l with
      | inl err => inl err
      | inr l => inr (acc :: l)
      end
    end
  end.

(** [UPDATE "accounts" SET "balance" = ("balance" op $1::numeric(8,2)) WHERE
    "id" = $2].  The balance column is modelled without [NULL]; neither
    caller binds a [NULL] amount here (process has just stored the amount in
    a [NOT NULL] column, cancel reads it from one), so that case leaves the
    table as it is. *)
Definition UPDATE_accounts_balance (op : Z → Z → Z) (amt : bound Z) (a : Z)
    (txn : Txn) (w : World) : (Error + unit * Txn) * World :=
  match amt with
  | SqlInvalid err => (inl err, w)
  | SqlNull => (inr ((), txn), w)
  | SqlVal c =>
    if negb (numeric_fits 8 c) then (inl PgError.numeric_value_out_of_range, w)
    else match update_accounts op c a (txn_accounts txn) with
         | inl err => (inl err, w)
         | inr l =>
           (inr ((), mkTxn (txn_now txn) l (txn_transactions txn) false), w)
         end
  end.

(** [SELECT "id", "balance" FROM "accounts" WHERE "requisite" = $1 FOR
    UPDATE] *)
Definition SELECT_account_for_update (r : option string) (txn : Txn) (w : World)
  : (Error + list Account * Txn) * World :=
  (inr (accounts_by_requisite r (txn_accounts txn), txn), w).

(** [SELECT "account_id", "amount", "status" FROM "transactions" WHERE
    "external_id" = $1 FOR UPDATE] *)
Definition SELECT_transaction_for_update (e : option string) (txn : Txn)
    (w : World) : (Error + list Row * Txn) * World :=
  (inr (transactions_by_external_id e (txn_transactions txn), txn), w).

Definition set_cancelled (r : Row) : Row :=
  mkRow (row_id r) (external_id r) (account_id r) (requisite r) (amount r)
        cancelled (row_message r) (row_initialized r) (completed r)
        (row_cancelled r).

(** [UPDATE "transactions" SET "status" = 'cancelled'::transaction_status
    WHERE "external_id" = $1] *)
Definition UPDATE_transactions_status (e : option string) (txn : Txn)
    (w : World) : (Error + unit * Txn) * World :=
  (inr ((), mkTxn (txn_now txn) (txn_accounts txn)
                  (map (λ r, if decide (Some (external_id r) = e)
                             then set_cancelled r else r)
                       (txn_transactions txn)) false), w).

(** ["completed" >= $1] and ["completed" BETWEEN $1 AND $2]; a comparison
    with [NULL] is not true. *)
Definition completed_within (b : Z) (e : option Z) (r : Row) : Prop :=
  match completed r, e with
  | Some t, Some e => b ≤ t ∧ t ≤ e
  | Some t, None => b ≤ t
  | None, _ => False
  end.

#[global] Instance completed_within_dec b e r : Decision (completed_within b e r).
Proof. unfold completed_within. destruct (completed r), e; apply _. Defined.

(** [SELECT * FROM "transactions" WHERE "completed" ...] *)
Definition transactions_completed (b : Z) (e : option Z) (l : list Row)
  : list Row :=
  filter (completed_within b e) l.

(** ** What a method calls back with *)

(** The [Date] the [pg] driver hands over for a [timestamptz] value: a
    [Date] counts whole milliseconds, so the microseconds [NOW()] stored are
    cut.  The integration test lists the range from the [timestamp] of one
    entity to that of a later one and expects the later entry left out. *)
Definition Date_of_timestamptz (t : Z) : Z := 1000 * (t / 1000).

(** The entity [new Transaction(row)] builds.  [message], [timestamp] and
    [internal.cancelled] are assigned only under their [if]. *)
Module Transaction.
Record internal_t := mkInternal {
  internal_id : Z;
  internal_cancelled : option Z
}.
Record t := mk {
  id : string;
  requisite : string;
  amount : Z;
  status : transaction_status;
  message : option string;
  timestamp : option Z;
  internal : internal_t
}.
End Transaction.

(** [function Transaction(row)] on the stored row [row] as the driver
    returns it, its [timestamptz] columns read into [Date]s: a text is truthy
    unless empty, a [Date] always. *)
Definition Transaction (row : Row) : Transaction.t :=
  Transaction.mk
    (external_id row) (requisite row) (amount row) (status row)
    (match row_message row with
     | Some m => if String.eqb m "" then None else Some m
     | None => None
     end)
    (Date_of_timestamptz <$> completed row)
    (Transaction.mkInternal (row_id row)
                            (Date_of_timestamptz <$> row_cancelled row)).

(** The third callback argument. *)
Inductive Body :=
  | BText (s : string)
  | BEntity (t : Transaction.t)
  | BList (l : list Transaction.t).

(** [!body] of [respond] is [negb (truthy_body body)]. *)
Definition truthy_body (b : option Body) : bool :=
  match b with
  | None => false
  | Some (BText s) => negb (String.eqb s "")
  | Some _ => true
  end.

(** [callback(err)], [callback(null, status, body)], or an exception raised
    before any callback. *)
Inductive Callback :=
  | CbErr (err : Error)
  | Cb (status : Z) (body : option Body)
  | Thrown.

(** ** The orchestrator ([lib/receiver.js]) *)

(** The route handlers, as they run once the address check in front of them
    has let the request through ([checkIp] of the prototype, which the
    example keeps, lets every request through). *)

Module PaymentReceiver.

(** The methods an implementation supplies, over its own store [St].  They
    read their argument and call back once. *)
Record Implementation (St : Type) := mkImplementation {
  validate : Object → St → Callback * St;
  process : Object → St → Callback * St;
  get : option jsval → St → Callback * St;
  cancel : option jsval → St → Callback * St;
  list : Object → St → Callback * St
}.
Arguments mkImplementation {St}.
Arguments validate {St}.
Arguments process {St}.
Arguments get {St}.
Arguments cancel {St}.
Arguments list {St}.

(** The methods of [PaymentReceiver.prototype]. *)
Definition prototype (St : Type) : Implementation St :=
  let not_implemented {A} (_ : A) (s : St) := (Cb STATUS.NOT_IMPLEMENTED None, s) in
  mkImplementation not_implemented not_implemented not_implemented
                   not_implemented not_implemented.

(** A request as the route handlers see it: the [:id] of the path, the
    parsed JSON body and the query string. *)
Record Request := mkRequest {
  route_id : string;
  body : Object;
  query : Object
}.

(** [req.params] of a route with [:id]. *)
Definition req_params (req : Request) : Object := {[ "id" := JStr (route_id req) ]}.

(** What goes out: [res.sendStatus(status)], [res.status(status).send(body)],
    or nothing when a method raised. *)
Inductive Response :=
  | sendStatus (status : Z)
  | send (status : Z) (body : option Body)
  | NoResponse.

(** The method calls a handler makes, in order, with their arguments. *)
Inductive Call :=
  | Validate (params : Object)
  | Process (params : Object)
  | Get (id : option jsval)
  | Cancel (id : option jsval)
  | List (query : Object).

(** [respond(res, status, body)] *)
Definition respond (status : Z) (body : option Body) : Response :=
  if negb (truthy_body body) then sendStatus status
  else send status body.

(** [res.status(STATUS.INTERNAL_SERVER_ERROR).send(err.toString())] *)
Definition internal_server_error (err : Error) : Response :=
  send STATUS.INTERNAL_SERVER_ERROR (Some (BText (toString err))).

Section Handlers.
Context (P : Platform) {St : Type} (self : Implementation St).

(** [new Date(v).getTime()], [None] for [NaN]. *)
Definition new_Date (v : option jsval) : option Z := v ≫= Date_getTime P.

(** [server.post('/api/validate', ...)]; the method gets [req.body]. *)
Definition post_validate (req : Request) (s : St)
  : Response * Datatypes.list Call * St :=
  let params := merge2 ∅ (body req) in
  if negb (truthy (params !! "requisite")) then
    (send STATUS.BAD_REQUEST (Some (BText "missing parameter `requisite`")), [], s)
  else
    let req_body := body req in
    match validate self req_body s with
    | (CbErr err, s) => (internal_server_error err, [Validate req_body], s)
    | (Thrown, s) => (NoResponse, [Validate req_body], s)
    | (Cb status body, s) => (respond status body, [Validate req_body], s)
    end.

(** The callbacks of [self.process] inside [server.post('/api/transactions/:id',
    ...)]. *)
Definition after_validate (params : Object) (s : St)
  : Response * Datatypes.list Call * St :=
  match process self params s with
  | (CbErr err, s) => (internal_server_error err, [Process params], s)
  | (Thrown, s) => (NoResponse, [Process params], s)
  | (Cb status body, s) =>
    if decide (status = STATUS.OK) then
      match get self (params !! "id") s with
      | (CbErr err, s) =>
        (internal_server_error err, [Process params; Get (params !! "id")], s)
      | (Thrown, s) => (NoResponse, [Process params; Get (params !! "id")], s)
      | (Cb status body, s) =>
        (respond status body, [Process params; Get (params !! "id")], s)
      end
    else (respond status body, [Process params], s)
  end.

(** [server.post('/api/transactions/:id', ...)] *)
Definition post_transaction (req : Request) (s : St)
  : Response * Datatypes.list Call * St :=
  let params := merge2 (body req) (req_params req) in
  if negb (truthy (params !! "amount")) then
    (send STATUS.BAD_REQUEST (Some (BText "missing parameter `amount`")), [], s)
  else if negb (truthy (params !! "timestamp")) then
    (send STATUS.BAD_REQUEST (Some (BText "missing parameter `timestamp`")), [], s)
  else
    match new_Date (params !! "timestamp") with
    | None =>
      (send STATUS.UNPROCESSABLE_ENTITY
            (Some (BText "parameter `timestamp` is not a valid ISO datetime")), [], s)
    | Some t =>
      let params := <[ "timestamp" := JDate t ]> params in
      match validate self params s with
      | (CbErr err, s) => (internal_server_error err, [Validate params], s)
      | (Thrown, s) => (NoResponse, [Validate params], s)
      | (Cb status body, s) =>
        if decide (status ≠ STATUS.OK) then
          (respond status body, [Validate params], s)
        else
          let '(res, calls, s) := after_validate params s in
          (res, Validate params :: calls, s)
      end
    end.

(** [server.get('/api/transactions/:id', ...)] *)
Definition get_transaction (req : Request) (s : St)
  : Response * Datatypes.list Call * St :=
  let id := req_params req !! "id" in
  match get self id s with
  | (CbErr err, s) => (internal_server_error err, [Get id], s)
  | (Thrown, s) => (NoResponse, [Get id], s)
  | (Cb status transaction, s) => (send status transaction, [Get id], s)
  end.

(** [server.delete('/api/transactions/:id', ...)] *)
Definition delete_transaction (req : Request) (s : St)
  : Response * Datatypes.list Call * St :=
  let id := req_params req !! "id" in
  match cancel self id s with
  | (CbErr err, s) => (internal_server_error err, [Cancel id], s)
  | (Thrown, s) => (NoResponse, [Cancel id], s)
  | (Cb status body, s) =>
    if decide (status = STATUS.OK) then
      match get self id s with
      | (CbErr err, s) => (internal_server_error err, [Cancel id; Get id], s)
      | (Thrown, s) => (NoResponse, [Cancel id; Get id], s)
      | (Cb status body, s) => (send status body, [Cancel id; Get id], s)
      end
    else (respond status body, [Cancel id], s)
  end.

(** [server.get('/api/transactions', ...)] *)
Definition get_transactions (req : Request) (s : St)
  : Response * Datatypes.list Call * St :=
  let query := merge2 ∅ (query req) in
  if negb (truthy (query !! "begin")) then
    (send STATUS.BAD_REQUEST (Some (BText "missing query parameter `begin`")), [], s)
  else
    match new_Date (query !! "begin") with
    | None =>
      (send STATUS.UNPROCESSABLE_ENTITY
            (Some (BText "query parameter `begin` is not a valid ISO datetime")), [], s)
    | Some b =>
      let query := <[ "begin" := JDate b ]> query in
      let parsed_end :=
        if truthy (query !! "end") then
          match new_Date (query !! "end") with
          | None => None
          | Some e => Some (<[ "end" := JDate e ]> query)
          end
        else Some query in
      match parsed_end with
      | None =>
        (send STATUS.UNPROCESSABLE_ENTITY
              (Some (BText "query parameter `end` is not a valid ISO datetime")), [], s)
      | Some query =>
        match list self query s with
        | (CbErr err, s) => (internal_server_error err, [List query], s)
        | (Thrown, s) => (NoResponse, [List query], s)
        | (Cb status l, s) => (send status l, [List query], s)
        end
      end
    end.

End Handlers.
End PaymentReceiver.

(** ** The example implementation ([example/server.js]) *)

Module receiver.
Section Methods.
Context (P : Platform).

(** [validate] *)
Definition validate (params : Object) (w : World) : Callback * World :=
  match connect w with
  | (Some err, w) => (CbErr err, w)
  | (None, w) =>
    match client_query
            (λ w, inr (accounts_by_requisite (sql_text P (params !! "requisite"))
                                             (accounts w))) w with
    | (inl err, w) => (CbErr err, w)
    | (inr [], w) =>
      (Cb STATUS.NOT_FOUND (Some (BText "account doesn't exist")), w)
    | (inr (account :: _), w) =>
      if decide (acc_status account ≠ active) then
        (Cb STATUS.FORBIDDEN (Some (BText "Please activate your account")), w)
      else (Cb STATUS.OK (Some (BText (full_name account))), w)
    end
  end.

(** [process].  An error of the [SELECT] releases the connection without a
    rollback; with no account row, [account.id] raises before any callback. *)
Definition process (params : Object) (w : World) : Callback * World :=
  match db_transaction w with
  | (inl err, w) => (CbErr err, w)
  | (inr txn, w) =>
    match txn_query
            (SELECT_account_for_update (sql_text P (params !! "requisite")))
            txn w with
    | (inl err, _, w) => (CbErr err, w)
    | (inr [], _, w) => (Thrown, w)
    | (inr (account :: _), txn, w) =>
      match txn_query
              (INSERT_transaction (sql_text P (params !! "id")) (acc_id account)
                                  (sql_text P (params !! "requisite"))
                                  (sql_numeric P (params !! "amount")))
              txn w with
      | (inl err, txn, w) =>
        let w := txn_abort txn w in
        if isDuplicateIdConstraint err then (Cb STATUS.OK None, w)
        else (CbErr err, w)
      | (inr _, txn, w) =>
        match txn_query
                (UPDATE_accounts_balance Z.add (sql_numeric P (params !! "amount"))
                                         (acc_id account))
                txn w with
        | (inl err, txn, w) => (CbErr err, txn_abort txn w)
        | (inr _, txn, w) =>
          match txn_commit txn w with
          | (Some err, w) => (CbErr err, w)
          | (None, w) => (Cb STATUS.OK None, w)
          end
        end
      end
    end
  end.

(** [get] *)
Definition get (id : option jsval) (w : World) : Callback * World :=
  match connect w with
  | (Some err, w) => (CbErr err, w)
  | (None, w) =>
    match client_query
            (λ w, inr (transactions_by_external_id (sql_text P id)
                                                   (transactions w))) w with
    | (inl err, w) => (CbErr err, w)
    | (inr [], w) =>
      (Cb STATUS.NOT_FOUND (Some (BText "transaction doesn't exist")), w)
    | (inr (row :: _), w) => (Cb STATUS.OK (Some (BEntity (Transaction row))), w)
    end
  end.

(** [cancel].  When [db.transaction] fails no [done] is passed, so
    [done(err)] raises.  The status [UPDATE] is sent and not waited for: the
    commit follows it whatever its outcome, and the commit's callback comes
    first. *)
Definition cancel (id : option jsval) (w : World) : Callback * World :=
  match db_transaction w with
  | (inl err, w) => (Thrown, w)
  | (inr txn, w) =>
    match txn_query (SELECT_transaction_for_update (sql_text P id)) txn w with
    | (inl err, txn, w) => (CbErr err, txn_abort txn w)
    | (inr [], txn, w) => (Cb STATUS.NOT_FOUND None, txn_abort txn w)
    | (inr (transaction :: _), txn, w) =>
      if decide (status transaction = cancelled) then
        (Cb STATUS.OK None, txn_abort txn w)
      else
        match txn_query
                (UPDATE_accounts_balance Z.sub (SqlVal (amount transaction))
                                         (account_id transaction))
                txn w with
        | (inl err, txn, w) => (CbErr err, txn_abort txn w)
        | (inr _, txn, w) =>
          let '(_, txn, w) :=
            txn_query (UPDATE_transactions_status (sql_text P id)) txn w in
          match txn_commit txn w with
          | (Some err, w) => (CbErr err, w)
          | (None, w) => (Cb STATUS.OK None, w)
          end
        end
    end
  end.

(** The [WHERE] clause of [list] with its parameters bound. *)
Definition completed_range (query : Object) : bound Z * bound (option Z) :=
  (sql_timestamp P (query !! "begin"),
   if truthy (query !! "end") then
     match sql_timestamp P (query !! "end") with
     | SqlVal e => SqlVal (Some e)
     | SqlInvalid err => SqlInvalid err
     | SqlNull => SqlNull
     end
   else SqlVal None).

(** [list] *)
Definition list (query : Object) (w : World) : Callback * World :=
  match connect w with
  | (Some err, w) => (CbErr err, w)
  | (None, w) =>
    match client_query
            (λ w, match completed_range query with
                  | (SqlInvalid err, _) | (_, SqlInvalid err) => inl err
                  | (SqlVal b, SqlVal e) =>
                    inr (transactions_completed b e (transactions w))
                  | (_, _) => inr []
                  end) w with
    | (inl err, w) => (CbErr err, w)
    | (inr rows, w) => (Cb STATUS.OK (Some (BList (map Transaction rows))), w)
    end
  end.

(** [new PaymentReceiver({...})] *)
Definition implementation : PaymentReceiver.Implementation World :=
  PaymentReceiver.mkImplementation validate process get cancel list.

End Methods.
End receiver.

(** ** Vocabulary of the properties *)

(** The two tables are what a caller can observe of a store. *)
Definition same_tables (w w' : World) : Prop :=
  accounts w' = accounts w ∧ transactions w' = transactions w.

(** The account [a] with its balance moved by [op _ c], the others as they
    are: what a successful balance [UPDATE] leaves. *)
Definition moved (op : Z → Z → Z) (c a : Z) (l : list Account) : list Account :=
  map (λ x, if decide (acc_id x = a)
            then mkAccount (acc_id x) (acc_requisite x) (full_name x)
                           (acc_status x) (op (balance x) c)
            else x) l.

(** The ledger after the status [UPDATE] for external id [e]. *)
Definition cancelled_in (e : string) (l : list Row) : list Row :=
  map (λ r, if decide (Some (external_id r) = Some e) then set_cancelled r else r) l.

(** The balance of account [a], if there is such an account. *)
Definition balance_of (a : Z) (w : World) : option Z :=
  balance <$> head (filter (λ x, acc_id x = a) (accounts w)).

(** The ledger entries with external id [e]. *)
Definition entries (e : string) (w : World) : list Row :=
  filter (λ r, external_id r = e) (transactions w).

(** What account [a] has been credited and not had reversed. *)
Fixpoint credited (a : Z) (l : list Row) : Z :=
  match l with
  | [] => 0
  | r :: l =>
    (if decide (account_id r = a ∧ status r ≠ cancelled) then amount r else 0)
    + credited a l
  end.

(** A store that obeys its schema (keys, unique indexes, column types,
    checks, foreign key) and in which every balance covers the credits that
    have not been reversed. *)
Record consistent (w : World) : Prop := mkConsistent {
  accounts_pkey : NoDup (map acc_id (accounts w));
  accounts_requisite_idx : NoDup (map acc_requisite (accounts w));
  transactions_external_id_idx : NoDup (map external_id (transactions w));
  accounts_columns : ∀ a, a ∈ accounts w →
    (String.length (acc_requisite a) ≤ 32)%nat ∧ 0 ≤ balance a < 10 ^ 12;
  transactions_columns : ∀ r, r ∈ transactions w →
    (String.length (external_id r) ≤ 24)%nat ∧ 0 < amount r < 10 ^ 8;
  transactions_account_id_fkey : ∀ r, r ∈ transactions w →
    ∃ a, a ∈ accounts w ∧ acc_id a = account_id r;
  balance_covers : ∀ a, a ∈ accounts w →
    credited (acc_id a) (transactions w) ≤ balance a
}.

(** [n] calls one after the other, each on the store the one before left. *)
Fixpoint repeat_call {St R : Type} (n : nat) (f : St → R * St) (s : St)
  : list R * St :=
  match n with
  | O => ([], s)
  | S n =>
    let '(r, s) := f s in
    let '(rs, s) := repeat_call n f s in
    (r :: rs, s)
  end.

(** The transaction id a method call is handed: [params.id] for the
    methods that take the parameter object, the argument itself for the
    others. *)
Definition call_id (c : PaymentReceiver.Call) : option jsval :=
  match c with
  | PaymentReceiver.Validate p | PaymentReceiver.Process p
  | PaymentReceiver.List p => p !! "id"
  | PaymentReceiver.Get i | PaymentReceiver.Cancel i => i
  end.

Definition is_validate (c : PaymentReceiver.Call) : bool :=
  match c with PaymentReceiver.Validate _ => true | _ => false end.

(** What a handler answers and the store it leaves, without its calls. *)
Definition answer {St : Type}
    (h : St → PaymentReceiver.Response * list PaymentReceiver.Call * St)
    (s : St) : PaymentReceiver.Response * St :=
  let '(res, _, s) := h s in (res, s).

(** What the handlers answer to a callback. *)
Definition responded (cb : Callback) : PaymentReceiver.Response :=
  match cb with
  | CbErr err => PaymentReceiver.internal_server_error err
  | Cb status body => PaymentReceiver.respond status body
  | Thrown => PaymentReceiver.NoResponse
  end.

(** The same with [res.status(status).send(body)] in place of [respond]. *)
Definition sent (cb : Callback) : PaymentReceiver.Response :=
  match cb with
  | CbErr err => PaymentReceiver.internal_server_error err
  | Cb status body => PaymentReceiver.send status body
  | Thrown => PaymentReceiver.NoResponse
  end.

(** The [params] the POST handler passes on once it has parsed the
    timestamp to [t]. *)
Definition process_params (req : PaymentReceiver.Request) (t : Z) : Object :=
  <[ "timestamp" := JDate t ]>
    (merge2 (PaymentReceiver.body req) (PaymentReceiver.req_params req)).

(** [query.end] is the [Date] [e], or is falsy when [e] is [None]. *)
Definition end_given (query : Object) (e : option Z) : Prop :=
  match e with
  | Some e => query !! "end" = Some (JDate e)
  | None => truthy (query !! "end") = false
  end.

(** The round trips of [process], in the order it makes them. *)
Inductive stage := AtConnect | AtBegin | AtSelect | AtInsert | AtUpdate | AtCommit.

Definition round_trips_before (k : stage) : nat :=
  match k with
  | AtConnect => 0
  | AtBegin => 1
  | AtSelect => 2
  | AtInsert => 3
  | AtUpdate => 4
  | AtCommit => 5
  end.

(** The round trips before stage [k] succeed and the one of [k] fails with
    [err]. *)
Definition failing_at (k : stage) (err : Error) (rest : list (option Error))
  : list (option Error) :=
  replicate (round_trips_before k) None ++ Some err :: rest.

(** [process] gets as far as stage [k] when the round trips before it
    succeed: the [INSERT] needs the account row, the [UPDATE] an [INSERT]
    the schema accepts, the commit an [UPDATE] the schema accepts. *)
Definition process_reaches (P : Platform) (params : Object) (w : World)
    (k : stage) : Prop :=
  match k with
  | AtConnect | AtBegin | AtSelect => True
  | AtInsert =>
    accounts_by_requisite (sql_text P (params !! "requisite")) (accounts w) ≠ []
  | AtUpdate =>
    ∃ account rest row,
      accounts_by_requisite (sql_text P (params !! "requisite")) (accounts w)
      = account :: rest
      ∧ new_transaction (transactions_id_seq w + 1) (clock w)
          (sql_text P (params !! "id")) (acc_id account)
          (sql_text P (params !! "requisite")) (sql_numeric P (params !! "amount"))
          (accounts w) (transactions w) = inr row
  | AtCommit =>
    ∃ account rest row c l,
      accounts_by_requisite (sql_text P (params !! "requisite")) (accounts w)
      = account :: rest
      ∧ sql_numeric P (params !! "amount") = SqlVal c
      ∧ new_transaction (transactions_id_seq w + 1) (clock w)
          (sql_text P (params !! "id")) (acc_id account)
          (sql_text P (params !! "requisite")) (SqlVal c)
          (accounts w) (transactions w) = inr row
      ∧ update_accounts Z.add c (acc_id account) (accounts w) = inr l
  end.

(** No account is overdrawn. *)
Definition nonnegative (w : World) : Prop :=
  Forall (λ a, 0 ≤ balance a) (accounts w).

(** The requests the server routes to a method. *)
Inductive Http :=
  | POST_validate (req : PaymentReceiver.Request)
  | POST_transaction (req : PaymentReceiver.Request)
  | GET_transaction (req : PaymentReceiver.Request)
  | DELETE_transaction (req : PaymentReceiver.Request)
  | GET_transactions (req : PaymentReceiver.Request).

(** The example server answering one request. *)
Definition serve (P : Platform) (h : Http) (w : World)
  : PaymentReceiver.Response * list PaymentReceiver.Call * World :=
  match h with
  | POST_validate req =>
    PaymentReceiver.post_validate (receiver.implementation P) req w
  | POST_transaction req =>
    PaymentReceiver.post_transaction P (receiver.implementation P) req w
  | GET_transaction req =>
    PaymentReceiver.get_transaction (receiver.implementation P) req w
  | DELETE_transaction req =>
    PaymentReceiver.delete_transaction (receiver.implementation P) req w
  | GET_transactions req =>
    PaymentReceiver.get_transactions P (receiver.implementation P) req w
  end.

(** The store after a sequence of requests. *)
Definition served (P : Platform) (hs : list Http) (w : World) : World :=
  foldl (λ w h, (serve P h w).2) w hs.

(** The row [process] stores for the request [req] on the store [w], for
    account [a] with requisite [r] and amount [c]. *)
Definition stored (req : PaymentReceiver.Request) (w : World) (a : Z)
    (r : string) (c : Z) : Row :=
  mkRow (transactions_id_seq w + 1) (PaymentReceiver.route_id req) a r c
        success None (clock w) (Some (clock w)) None.

(** The statuses an entry does not leave, but for the cancellation of a
    completed one. *)
Definition terminal (s : transaction_status) : Prop :=
  s = success ∨ s = failure ∨ s = cancelled.

(** The completion timestamp is set exactly on the terminal entries. *)
Definition timely (w : World) : Prop :=
  ∀ r, r ∈ transactions w → is_Some (completed r) ↔ terminal (status r).

(** Every entry is terminal and has its completion timestamp: what the
    entries [process] writes are, and stay when cancelled. *)
Definition settled (w : World) : Prop :=
  ∀ r, r ∈ transactions w → is_Some (completed r) ∧ terminal (status r).

(** ** A concrete deployment *)

Module Scenario.

(** A platform that reads any non-empty text as the date 0 and has no
    other conversions. *)
Definition platform : Platform :=
  mkPlatform
    (λ v, match v with
          | JStr s => if String.eqb s "" then None else Some 0
          | JDate t => Some t
          | _ => None
          end)
    (λ _, "") (λ _, None) (λ _, None).

(** The store after [example/db/seed.js]. *)
Definition seeded : World :=
  mkWorld
    [mkAccount 1 "996700650835" "Dan Kerimdzhanov" active 0;
     mkAccount 2 "996555362358" "Andy Romashin" suspended 0]
    [] 0 1000 [].

(** The notification of the integration test, with an [id] of its own in
    the body. *)
Definition notification : PaymentReceiver.Request :=
  PaymentReceiver.mkRequest "5648dc5077ba42ee6b13ff6f"
    (list_to_map [("requisite", JStr "996700650835"); ("amount", JNum 4595);
                  ("timestamp", JStr "2015-11-24T17:41:26.691Z");
                  ("id", JStr "another")])
    ∅.

(** The same for the suspended account, and one with a zero amount. *)
Definition to_suspended : PaymentReceiver.Request :=
  PaymentReceiver.mkRequest "564a50cb77ba42ee6b1407ca"
    (list_to_map [("requisite", JStr "996555362358"); ("amount", JNum 4595);
                  ("timestamp", JStr "2015-11-24T17:41:26.691Z")])
    ∅.

Definition zero_amount : PaymentReceiver.Request :=
  PaymentReceiver.mkRequest "564a4ff477ba42ee6b1407c9"
    (list_to_map [("requisite", JStr "996700650835"); ("amount", JNum 0);
                  ("timestamp", JStr "2015-11-24T17:41:26.691Z")])
    ∅.

(** A notification of [c] hundredths for the active account. *)
Definition credit (id : string) (c : Z) : PaymentReceiver.Request :=
  PaymentReceiver.mkRequest id
    (list_to_map [("requisite", JStr "996700650835"); ("amount", JNum c);
                  ("timestamp", JStr "2015-11-24T17:41:26.691Z")])
    ∅.

(** [GET /api/transactions?begin=...] *)
Definition listing : PaymentReceiver.Request :=
  PaymentReceiver.mkRequest ""
    ∅ (list_to_map [("begin", JStr "2015-11-24T00:00:00.000Z")]).

(** The entry the notification leaves, and the store holding it at a later
    time. *)
Definition applied_row : Row :=
  mkRow 1 "5648dc5077ba42ee6b13ff6f" 1 "996700650835" 4595 success None
        1000 (Some 1000) None.

Definition applied : World :=
  mkWorld
    [mkAccount 1 "996700650835" "Dan Kerimdzhanov" active 4595;
     mkAccount 2 "996555362358" "Andy Romashin" suspended 0]
    [applied_row] 1 2000 [].

(** The seeded store on which the balance [UPDATE] of the next [process]
    loses its connection. *)
Definition connection_lost : Error :=
  mkError "Error" "Connection terminated" None None.

Definition failing : World :=
  with_faults (failing_at AtUpdate connection_lost []) seeded.

End Scenario.

(** ** The address check in front of the routes ([lib/receiver.js]) *)

Module Server.

(** What the check reads of a request: the [x-forwarded-for] header and the
    address of the socket, each a text or [undefined]. *)
Record Peer := mkPeer {
  x_forwarded_for : option string;
  connection_remoteAddress : option string
}.

(** [a || b] on two texts that may be [undefined]. *)
Definition or_else (a b : option string) : option string :=
  match a with
  | Some s => if String.eqb s "" then b else a
  | None => b
  end.

(** [req.headers['x-forwarded-for'] || req.connection.remoteAddress] *)
Definition remoteAddress (peer : Peer) : option string :=
  or_else (x_forwarded_for peer) (connection_remoteAddress peer).

(** A text or [undefined] inside a string concatenation. *)
Definition concatenated (v : option string) : string := default "undefined" v.

(** The double quote character. *)
Definition dquote : string := String (Ascii.ascii_of_nat 34) EmptyString.

(** [PaymentReceiver.prototype.checkIp] *)
Definition checkIp {St : Type} (remoteAddress : option string) (s : St)
  : Callback * St :=
  (Cb STATUS.NOT_IMPLEMENTED None, s).

(** [server.use('/', ...)]: [next] is the route the request goes on to. *)
Definition use {St : Type} (checkIp : option string → St → Callback * St)
    (peer : Peer)
    (next : St → PaymentReceiver.Response * list PaymentReceiver.Call * St)
    (s : St) : PaymentReceiver.Response * list PaymentReceiver.Call * St :=
  match checkIp (remoteAddress peer) s with
  | (CbErr err, s) => (PaymentReceiver.internal_server_error err, [], s)
  | (Thrown, s) => (PaymentReceiver.NoResponse, [], s)
  | (Cb status _, s) =>
    if decide (status = STATUS.FORBIDDEN) then
      (PaymentReceiver.send STATUS.FORBIDDEN
         (Some (BText ("request denied for " +:+ dquote
                       +:+ concatenated (remoteAddress peer)
                       +:+ dquote +:+ ", invalid IP"))), [], s)
    else next s
  end.

End Server.

(** ** The connection string ([example/db/index.js]) *)

Module Config.

(** A value of [database.json]: a text, an object whose [ENV] names an
    environment variable, [null], or anything else (a number, a boolean, an
    array, an object without a truthy [ENV]) with the text it concatenates
    as and its truthiness. *)
Inductive setting :=
  | Text (s : string)
  | Env (ENV : string)
  | Null
  | Other (text : string) (truth : bool).

(** What [getConfig] returns. *)
Inductive value :=
  | Undefined
  | Str (s : string)
  | Opaque (text : string) (truth : bool).

(** [getConfig(name, defaultValue)] over the settings of the environment
    section and [process.env]; [None] when reading [null.ENV] raises.  An
    [ENV] that is the empty text is falsy, so the object stays as it is. *)
Definition getConfig (configs : gmap string setting) (env : gmap string string)
    (name : string) (defaultValue : value) : option value :=
  match configs !! name with
  | Some Null => None
  | Some (Env var) =>
    if String.eqb var "" then Some (Opaque "[object Object]" true)
    else Some (match env !! var with Some s => Str s | None => Undefined end)
  | Some (Text s) => Some (Str s)
  | Some (Other text truth) => Some (Opaque text truth)
  | None => Some defaultValue
  end.

(** A value inside a string concatenation, and under [if]. *)
Definition shown (v : value) : string :=
  match v with
  | Undefined => "undefined"
  | Str s => s
  | Opaque text _ => text
  end.

Definition truthy (v : value) : bool :=
  match v with
  | Undefined => false
  | Str s => negb (String.eqb s "")
  | Opaque _ truth => truth
  end.

(** The [conString] that [exports.connect] hands to [pg.connect]. *)
Definition conString (configs : gmap string setting) (env : gmap string string)
  : option string :=
  user ← getConfig configs env "user" Undefined;
  let conString := "postgres://" +:+ shown user in
  password ← getConfig configs env "password" Undefined;
  let conString :=
    if truthy password then conString +:+ ":" +:+ shown password
    else conString in
  host ← getConfig configs env "host" (Str "localhost");
  database ← getConfig configs env "database" Undefined;
  Some (conString +:+ "@" +:+ shown host +:+ "/" +:+ shown database).

End Config.

(** ** More vocabulary *)


(** [req] is a well-formed notification of [c] hundredths for the requisite
    [r]. *)
Definition notifies (P : Platform) (r : string)
    (req : PaymentReceiver.Request) (c : Z) : Prop :=
  PaymentReceiver.body req !! "requisite" = Some (JStr r)
  ∧ PaymentReceiver.body req !! "amount" = Some (JNum c)
  ∧ truthy (PaymentReceiver.body req !! "timestamp") = true
  ∧ is_Some (PaymentReceiver.new_Date P (PaymentReceiver.body req !! "timestamp"))
  ∧ (String.length (PaymentReceiver.route_id req) ≤ 24)%nat
  ∧ 0 < c < 10 ^ 8.

(** The answers to a sequence of requests, and the store they leave. *)
Fixpoint answers (P : Platform) (hs : list Http) (w : World)
  : list PaymentReceiver.Response * World :=
  match hs with
  | [] => ([], w)
  | h :: hs =>
    let '(res, _, w) := serve P h w in
    let '(rs, w) := answers P hs w in
    (res :: rs, w)
  end.

(** A row of the ledger, up to its status having become [cancelled]. *)
Definition kept (r : Row) (l : list Row) : Prop := r ∈ l ∨ set_cancelled r ∈ l.

(** What of an account no request changes. *)
Definition identity (a : Account) : Z * string * string * account_status :=
  (acc_id a, acc_requisite a, full_name a, acc_status a).

(** The sum of a list of amounts. *)
Definition total (l : list Z) : Z := foldr Z.add 0 l.

(** ** More concrete cases *)

Module Cases.

(** The entry of the notification in the ledger of an account that no
    longer has the money. *)
Definition overdrawn : World :=
  mkWorld
    [mkAccount 1 "996700650835" "Dan Kerimdzhanov" active 1000;
     mkAccount 2 "996555362358" "Andy Romashin" suspended 0]
    [Scenario.applied_row] 1 2000 [].

(** The seeded store at a time that is not a whole millisecond. *)
Definition later : World :=
  mkWorld (accounts Scenario.seeded) [] 0 1000993 [].

(** The seeded store on which the next [BEGIN] fails. *)
Definition cannot_begin : World :=
  with_faults [None; Some Scenario.connection_lost] Scenario.seeded.


Definition no_requisite : PaymentReceiver.Request :=
  PaymentReceiver.mkRequest "564a50cb77ba42ee6b1407ca"
    (list_to_map [("amount", JNum 4595);
                  ("timestamp", JStr "2015-11-24T17:41:26.691Z")])
    ∅.

Definition other_amount : PaymentReceiver.Request :=
  Scenario.credit "5648dc5077ba42ee6b13ff6f" 100.

(** [POST /api/validate] for the active account. *)
Definition identify : PaymentReceiver.Request :=
  PaymentReceiver.mkRequest ""
    (list_to_map [("requisite", JStr "996700650835")]) ∅.

(** [GET /api/transactions?begin=...&end=...] *)
Definition between : PaymentReceiver.Request :=
  PaymentReceiver.mkRequest ""
    ∅ (list_to_map [("begin", JStr "2015-11-24T00:00:00.000Z");
                    ("end", JStr "2015-11-25T00:00:00.000Z")]).

(** The three notifications of the integration test. *)
Definition three : list (PaymentReceiver.Request * Z) :=
  [(Scenario.credit "5648dc5077ba42ee6b13ff6f" 24691, 24691);
   (Scenario.credit "564a50cb77ba42ee6b1407ca" 37037, 37037);
   (Scenario.credit "564a4ff477ba42ee6b1407c9" 61728, 61728)].

(** A platform that reads the two dates of [between] as 500 and 2000. *)
Definition calendar : Platform :=
  mkPlatform
    (λ v, match v with
          | JStr s =>
            if String.eqb s "2015-11-24T00:00:00.000Z" then Some 500
            else if String.eqb s "2015-11-25T00:00:00.000Z" then Some 2000
            else None
          | JDate t => Some t
          | _ => None
          end)
    (λ _, "") (λ _, None) (λ _, None).

(** Settings with the host taken from an environment variable. *)
Definition settings : gmap string Config.setting :=
  list_to_map [("user", Config.Text "umai");
               ("database", Config.Text "umai_payment_receiver_dev");
               ("host", Config.Env "PGHOST")].

End Cases.

(** * Properties *)

(** ** Round trips and transactions *)

Lemma round_trip_quiet w : faults w = [] → round_trip w = (None, w).
Proof. unfold round_trip. by intros ->. Qed.

Lemma round_trip_tables w : same_tables w (round_trip w).2.
Proof. unfold round_trip. by destruct (faults w). Qed.

Lemma same_tables_refl w : same_tables w w.
Proof. done. Qed.

Lemma same_tables_trans w1 w2 w3 :
  same_tables w1 w2 → same_tables w2 w3 → same_tables w1 w3.
Proof. intros [] []. split; congruence. Qed.

Lemma round_trip_spec w : ∃ o fs, round_trip w = (o, with_faults fs w).
Proof.
  unfold round_trip. destruct w as [a t k c [|f fs]]; simpl; eauto.
Qed.

(** Replaces the next round trip of the goal by its two outcomes. *)
Ltac step_rt :=
  match goal with
  | |- context [round_trip ?w] =>
    let o := fresh "o" in
    let fs := fresh "fs" in
    destruct (round_trip_spec w) as (o & fs & ->); destruct o; simpl
  end.

(** ** The statements *)

Lemma new_transaction_inr k now e a r amt accs rows row :
  new_transaction k now e a r amt accs rows = inr row →
  ∃ e' r' c, e = Some e' ∧ r = Some r' ∧ amt = SqlVal c ∧
    (String.length e' ≤ 24)%nat ∧ (String.length r' ≤ 32)%nat ∧
    0 < c < 10 ^ 8 ∧
    filter (λ x, external_id x = e') rows = [] ∧
    filter (λ x, acc_id x = a) accs ≠ [] ∧
    row = mkRow k e' a r' c success None now (Some now) None.
Proof.
  unfold new_transaction. intros H.
  destruct (too_long 24 e) eqn:He; [done|].
  destruct (too_long 32 r) eqn:Hr; [done|].
  destruct e as [e'|], r as [r'|], amt as [|?|c]; try done.
  destruct (negb (numeric_fits 8 c)) eqn:Hf; [done|].
  destruct (negb (0 <? c)) eqn:Hc; [done|].
  case_bool_decide as Hu; [done|]. case_bool_decide as Hk; [done|].
  simplify_eq. exists e', r', c.
  unfold too_long, numeric_fits in *.
  apply negb_false_iff in Hf, Hc.
  apply Nat.ltb_ge in He, Hr. apply Z.ltb_lt in Hf, Hc.
  unfold transactions_by_external_id in Hu.
  split_and!; try done; try lia.
Qed.

Lemma new_transaction_ok k now e a r c accs rows :
  (String.length e ≤ 24)%nat → (String.length r ≤ 32)%nat →
  0 < c < 10 ^ 8 →
  filter (λ x, external_id x = e) rows = [] →
  filter (λ x, acc_id x = a) accs ≠ [] →
  new_transaction k now (Some e) a (Some r) (SqlVal c) accs rows
  = inr (mkRow k e a r c success None now (Some now) None).
Proof.
  intros He Hr Hc Hu Hk. unfold new_transaction, too_long, numeric_fits.
  apply Nat.ltb_ge in He, Hr. rewrite He, Hr.
  replace (Z.abs c <? 10 ^ 8) with true by (symmetry; apply Z.ltb_lt; lia).
  replace (0 <? c) with true by (symmetry; apply Z.ltb_lt; lia).
  simpl. unfold transactions_by_external_id. rewrite Hu.
  rewrite bool_decide_eq_false_2 by auto.
  by rewrite bool_decide_eq_false_2.
Qed.

(** A ledger that already holds the external id answers a well-formed
    [INSERT] with the unique violation. *)
Lemma new_transaction_duplicate k now e a r c accs rows :
  (String.length e ≤ 24)%nat → (String.length r ≤ 32)%nat →
  0 < c < 10 ^ 8 →
  filter (λ x, external_id x = e) rows ≠ [] →
  new_transaction k now (Some e) a (Some r) (SqlVal c) accs rows
  = inl PgError.unique_violation.
Proof.
  intros He Hr Hc Hu. unfold new_transaction, too_long, numeric_fits.
  apply Nat.ltb_ge in He, Hr. rewrite He, Hr.
  replace (Z.abs c <? 10 ^ 8) with true by (symmetry; apply Z.ltb_lt; lia).
  replace (0 <? c) with true by (symmetry; apply Z.ltb_lt; lia).
  simpl. unfold transactions_by_external_id.
  by rewrite bool_decide_eq_true_2.
Qed.

Lemma update_accounts_inr op c a l l' :
  update_accounts op c a l = inr l' →
  l' = moved op c a l ∧
  ∀ x, x ∈ l → acc_id x = a → 0 ≤ op (balance x) c < 10 ^ 12.
Proof.
  revert l'. induction l as [|x l IH]; intros l' H; simpl in H.
  - simplify_eq. split; [done|]. intros ? Hx. by apply elem_of_nil in Hx.
  - destruct (decide (acc_id x = a)) as [Hx|Hx].
    + unfold set_balance, numeric_fits in H.
      destruct (negb (Z.abs (op (balance x) c) <? 10 ^ 12)) eqn:Hf; [done|].
      destruct (op (balance x) c <? 0) eqn:Hn; [done|].
      destruct (update_accounts op c a l) as [|l0] eqn:Hl; [done|].
      destruct (IH l0 eq_refl) as [-> IH']. simplify_eq. split.
      * unfold moved. simpl. by rewrite decide_True.
      * apply negb_false_iff, Z.ltb_lt in Hf. apply Z.ltb_ge in Hn.
        intros y [->|Hy]%elem_of_cons ?; [lia|by apply IH'].
    + destruct (update_accounts op c a l) as [|l0] eqn:Hl; [done|].
      destruct (IH l0 eq_refl) as [-> IH']. simplify_eq. split.
      * unfold moved. simpl. by rewrite decide_False.
      * intros y [->|Hy]%elem_of_cons ?; [done|by apply IH'].
Qed.

Lemma update_accounts_ok op c a l :
  (∀ x, x ∈ l → acc_id x = a → 0 ≤ op (balance x) c < 10 ^ 12) →
  update_accounts op c a l = inr (moved op c a l).
Proof.
  induction l as [|x l IH]; intros H; [done|]. simpl.
  rewrite IH by (intros; apply H; [by right|done]).
  destruct (decide (acc_id x = a)) as [Hx|Hx]; [|done].
  unfold set_balance, numeric_fits.
  specialize (H x (list_elem_of_here _ _) Hx).
  replace (Z.abs (op (balance x) c) <? 10 ^ 12) with true
    by (symmetry; apply Z.ltb_lt; lia).
  by replace (op (balance x) c <? 0) with false
    by (symmetry; apply Z.ltb_ge; lia).
Qed.

Arguments new_transaction : simpl never.
Arguments update_accounts : simpl never.
Arguments accounts_by_requisite : simpl never.
Arguments transactions_by_external_id : simpl never.
Arguments transactions_completed : simpl never.
Arguments sql_text : simpl never.
Arguments sql_numeric : simpl never.
Arguments sql_timestamp : simpl never.
Arguments isDuplicateIdConstraint : simpl never.
Arguments numeric_fits : simpl never.

(** ** What the engine leaves in the tables, whatever fails *)

Section EngineTables.
Context (P : Platform).

Lemma process_tables params w cb w' :
  receiver.process P params w = (cb, w') →
  same_tables w w' ∨
  (cb = Cb STATUS.OK None ∧ ∃ account c row,
      account ∈ accounts w ∧
      sql_numeric P (params !! "amount") = SqlVal c ∧
      new_transaction (transactions_id_seq w + 1) (clock w)
        (sql_text P (params !! "id")) (acc_id account)
        (sql_text P (params !! "requisite")) (SqlVal c)
        (accounts w) (transactions w) = inr row ∧
      update_accounts Z.add c (acc_id account) (accounts w) = inr (accounts w') ∧
      transactions w' = transactions w ++ [row]).
Proof.
  unfold receiver.process, db_transaction, connect, txn_query, txn_commit, txn_abort.
  step_rt; [intros; simplify_eq; by left|].
  step_rt; [intros; simplify_eq; by left|].
  step_rt; [intros; simplify_eq; by left|].
  destruct (accounts_by_requisite _ _) as [|account rest] eqn:Hsel;
    [intros; simplify_eq; by left|].
  step_rt.
  { step_rt; destruct (isDuplicateIdConstraint e); intros; simplify_eq; by left. }
  unfold INSERT_transaction. simpl.
  destruct (new_transaction _ _ _ _ _ (sql_numeric _ _) _ _) as [err|row] eqn:Hins.
  { destruct (sql_numeric _ _); simpl;
      step_rt; destruct (isDuplicateIdConstraint _); intros; simplify_eq; by left. }
  destruct (new_transaction_inr _ _ _ _ _ _ _ _ _ Hins)
    as (e' & r' & c & He & Hr & Hc & _).
  rewrite Hc in *. simpl.
  step_rt; [step_rt; intros; simplify_eq; by left|].
  unfold UPDATE_accounts_balance. simpl.
  destruct (negb (numeric_fits 8 c)); simpl;
    [step_rt; intros; simplify_eq; by left|].
  destruct (update_accounts _ _ _ _) as [err|l] eqn:Hupd; simpl;
    [step_rt; intros; simplify_eq; by left|].
  step_rt; [intros; simplify_eq; by left|].
  intros; simplify_eq. right. split; [done|].
  exists account, c, row. simpl. split_and!; try done.
  unfold accounts_by_requisite in Hsel. destruct (sql_text _ _); [|done].
  assert (account ∈ filter (λ a, acc_requisite a = s) (accounts w)) as Hin
    by (rewrite Hsel; left).
  by apply list_elem_of_filter in Hin as [_ ?].
Qed.

Lemma cancel_tables id w cb w' :
  receiver.cancel P id w = (cb, w') →
  same_tables w w' ∨
  (cb = Cb STATUS.OK None ∧ ∃ e row rest,
      sql_text P id = Some e ∧
      filter (λ r, external_id r = e) (transactions w) = row :: rest ∧
      status row ≠ cancelled ∧
      update_accounts Z.sub (amount row) (account_id row) (accounts w)
        = inr (accounts w') ∧
      transactions w' = cancelled_in e (transactions w)).
Proof.
  unfold receiver.cancel, db_transaction, connect, txn_query, txn_commit, txn_abort.
  step_rt; [intros; simplify_eq; by left|].
  step_rt; [intros; simplify_eq; by left|].
  step_rt; [step_rt; intros; simplify_eq; by left|].
  destruct (transactions_by_external_id _ _) as [|row rest] eqn:Hsel;
    [step_rt; intros; simplify_eq; by left|].
  destruct (decide (status row = cancelled)) as [Hst|Hst];
    [step_rt; intros; simplify_eq; by left|].
  step_rt; [step_rt; intros; simplify_eq; by left|].
  unfold UPDATE_accounts_balance. simpl.
  destruct (negb (numeric_fits 8 (amount row))); simpl;
    [step_rt; intros; simplify_eq; by left|].
  destruct (update_accounts _ _ _ _) as [err|l] eqn:Hupd; simpl;
    [step_rt; intros; simplify_eq; by left|].
  step_rt; [step_rt; intros; simplify_eq; by left|].
  step_rt; [intros; simplify_eq; by left|].
  intros; simplify_eq. right. split; [done|].
  unfold transactions_by_external_id in Hsel.
  destruct (sql_text P id) as [e|] eqn:He; [|done].
  exists e, row, rest. by simpl.
Qed.

End EngineTables.

(** ** Consistency is kept *)

Lemma consistent_same_tables w w' :
  same_tables w w' → consistent w → consistent w'.
Proof.
  intros [Ha Ht] [? ? ? ? ? ? ?]. split; rewrite ?Ha, ?Ht; done.
Qed.

Lemma moved_ids op c a l : map acc_id (moved op c a l) = map acc_id l.
Proof.
  unfold moved. rewrite map_map. apply map_ext. intros x. by case_decide.
Qed.

Lemma moved_requisites op c a l :
  map acc_requisite (moved op c a l) = map acc_requisite l.
Proof.
  unfold moved. rewrite map_map. apply map_ext. intros x. by case_decide.
Qed.

Lemma elem_of_moved op c a l y :
  y ∈ moved op c a l →
  ∃ x, x ∈ l ∧ acc_id y = acc_id x ∧ acc_requisite y = acc_requisite x ∧
       acc_status y = acc_status x ∧
       balance y = if decide (acc_id x = a) then op (balance x) c else balance x.
Proof.
  unfold moved. intros (x & -> & Hx)%list_elem_of_fmap. exists x.
  by case_decide.
Qed.

Lemma moved_elem_of op c a l x :
  x ∈ l → ∃ y, y ∈ moved op c a l ∧ acc_id y = acc_id x.
Proof.
  intros Hx. eexists. split.
  - unfold moved. apply list_elem_of_fmap. eauto.
  - by case_decide.
Qed.

Lemma credited_app a l1 l2 : credited a (l1 ++ l2) = credited a l1 + credited a l2.
Proof. induction l1 as [|r l1 IH]; simpl; [done|]. rewrite IH. lia. Qed.

Lemma cancelled_in_ids e l : map external_id (cancelled_in e l) = map external_id l.
Proof.
  unfold cancelled_in. rewrite map_map. apply map_ext. intros r. by case_decide.
Qed.

Lemma cancelled_in_absent e l : e ∉ map external_id l → cancelled_in e l = l.
Proof.
  induction l as [|r l IH]; [done|]. intros Hn. simpl in Hn.
  rewrite not_elem_of_cons in Hn. destruct Hn as [? ?].
  unfold cancelled_in in *. simpl.
  destruct (decide _) as [?|_]; [congruence|]. f_equal. by apply IH.
Qed.

Lemma credited_cancelled_in a e l row :
  NoDup (map external_id l) → row ∈ l → external_id row = e →
  status row ≠ cancelled →
  credited a (cancelled_in e l)
  = credited a l - (if decide (account_id row = a) then amount row else 0).
Proof.
  induction l as [|r l IH]; intros Hnd Hin He Hst.
  - by apply elem_of_nil in Hin.
  - simpl in Hnd. apply NoDup_cons in Hnd as [Hr Hnd].
    unfold cancelled_in. simpl.
    apply elem_of_cons in Hin as [<-|Hin].
    + subst e. destruct (decide (Some _ = Some _)) as [_|?]; [|done].
      fold (cancelled_in (external_id row) l).
      rewrite cancelled_in_absent by done. simpl.
      repeat (destruct (decide _) as [?|?]); try lia; intuition congruence.
    + assert (external_id r ≠ e) as Hne.
      { intros Heq. apply Hr. rewrite Heq, <- He.
        apply list_elem_of_fmap. eauto. }
      destruct (decide (Some _ = Some _)) as [?|_]; [congruence|].
      fold (cancelled_in e l). rewrite IH by done. simpl. lia.
Qed.

Lemma filter_unique e l row rest :
  NoDup (map external_id l) →
  filter (λ r, external_id r = e) l = row :: rest →
  rest = [] ∧ row ∈ l ∧ external_id row = e.
Proof.
  intros Hnd Hf.
  assert (row ∈ filter (λ r, external_id r = e) l) as Hin by (rewrite Hf; left).
  apply list_elem_of_filter in Hin as [He Hin]. split_and!; try done.
  revert row rest Hf He Hin. induction l as [|r l IH]; intros row rest Hf He Hin.
  - done.
  - apply NoDup_cons in Hnd as [Hr Hnd]. rewrite filter_cons in Hf.
    case_decide as Hd.
    + simplify_eq. destruct (filter _ l) as [|r' ?] eqn:Hl; [done|].
      exfalso. apply Hr.
      assert (r' ∈ filter (λ r0, external_id r0 = external_id row) l) as Hin'
        by (rewrite Hl; left).
      apply list_elem_of_filter in Hin' as [<- Hin'].
      apply list_elem_of_fmap. eauto.
    + apply (IH Hnd row rest Hf He).
      apply elem_of_cons in Hin as [->|?]; done.
Qed.

Section Preservation.
Context (P : Platform).

Lemma consistent_process params w cb w' :
  consistent w → receiver.process P params w = (cb, w') → consistent w'.
Proof.
  intros Hw Hp. destruct (process_tables P _ _ _ _ Hp)
    as [Hs|(_ & account & c & row & Hacc & _ & Hins & Hupd & Hrows)].
  { by eapply consistent_same_tables. }
  apply new_transaction_inr in Hins
    as (e & r & c' & _ & _ & ? & He & Hr & Hc & Hfresh & _ & ->).
  simplify_eq.
  apply update_accounts_inr in Hupd as [Hacc' Hbal].
  destruct Hw as [Hpk Hrq Hex Hac Htc Hfk Hcov].
  assert (e ∉ map external_id (transactions w)) as Hnew.
  { intros (x & Hx & Hin)%list_elem_of_fmap.
    assert (x ∈ filter (λ x, external_id x = e) (transactions w)) as Hf
      by (by apply list_elem_of_filter).
    rewrite Hfresh in Hf. by apply elem_of_nil in Hf. }
  split; rewrite ?Hacc', ?Hrows.
  - by rewrite moved_ids.
  - by rewrite moved_requisites.
  - rewrite map_app. simpl. apply NoDup_app. split_and!; [done| |apply NoDup_singleton].
    intros x Hx ->%list_elem_of_singleton. done.
  - intros y (x & Hx & _ & -> & _ & ->)%elem_of_moved.
    destruct (Hac x Hx) as [? ?]. split; [done|].
    case_decide; [by apply Hbal|done].
  - intros x [Hx| ->%list_elem_of_singleton]%elem_of_app; [by apply Htc|].
    simpl. lia.
  - intros x [Hx| ->%list_elem_of_singleton]%elem_of_app.
    + destruct (Hfk x Hx) as (a & Ha & <-). by apply moved_elem_of.
    + simpl. by apply moved_elem_of.
  - intros y (x & Hx & -> & _ & _ & ->)%elem_of_moved.
    rewrite credited_app. simpl. specialize (Hcov x Hx).
    repeat (destruct (decide _) as [?|?]); try lia; intuition congruence.
Qed.

Lemma consistent_cancel id w cb w' :
  consistent w → receiver.cancel P id w = (cb, w') → consistent w'.
Proof.
  intros Hw Hp. destruct (cancel_tables P _ _ _ _ Hp)
    as [Hs|(_ & e & row & rest & _ & Hsel & Hst & Hupd & Hrows)].
  { by eapply consistent_same_tables. }
  apply update_accounts_inr in Hupd as [Hacc' Hbal].
  destruct Hw as [Hpk Hrq Hex Hac Htc Hfk Hcov].
  destruct (filter_unique _ _ _ _ Hex Hsel) as (-> & Hrow & He).
  split; rewrite ?Hacc', ?Hrows.
  - by rewrite moved_ids.
  - by rewrite moved_requisites.
  - by rewrite cancelled_in_ids.
  - intros y (x & Hx & _ & -> & _ & ->)%elem_of_moved.
    destruct (Hac x Hx) as [? ?]. split; [done|].
    case_decide; [by apply Hbal|done].
  - intros y (x & -> & Hx)%list_elem_of_fmap.
    specialize (Htc x Hx). by case_decide.
  - intros y (x & -> & Hx)%list_elem_of_fmap.
    destruct (Hfk x Hx) as (a & Ha & Hid).
    destruct (moved_elem_of Z.sub (amount row) (account_id row) _ _ Ha)
      as (a' & ? & ?).
    exists a'. split; [done|]. case_decide; simpl; congruence.
  - intros y (x & Hx & -> & _ & _ & ->)%elem_of_moved.
    rewrite (credited_cancelled_in _ _ _ row) by done.
    specialize (Hcov x Hx).
    repeat (destruct (decide _) as [?|?]); try lia; intuition congruence.
Qed.

End Preservation.

(** ** The methods on a store where no round trip fails *)

Section Quiet.
Context (P : Platform).

Ltac quiet w H :=
  destruct w as [accs rows k now fs]; simpl in H; subst fs;
  unfold db_transaction, connect, client_query, txn_query, txn_commit,
    txn_abort, round_trip; simpl.

Lemma validate_quiet params w :
  faults w = [] →
  receiver.validate P params w =
  (match accounts_by_requisite (sql_text P (params !! "requisite")) (accounts w) with
   | [] => Cb STATUS.NOT_FOUND (Some (BText "account doesn't exist"))
   | account :: _ =>
     if decide (acc_status account ≠ active)
     then Cb STATUS.FORBIDDEN (Some (BText "Please activate your account"))
     else Cb STATUS.OK (Some (BText (full_name account)))
   end, w).
Proof.
  intros H. unfold receiver.validate. quiet w H.
  destruct (accounts_by_requisite _ _); [done|]. by case_decide.
Qed.

Lemma get_quiet id w :
  faults w = [] →
  receiver.get P id w =
  (match transactions_by_external_id (sql_text P id) (transactions w) with
   | [] => Cb STATUS.NOT_FOUND (Some (BText "transaction doesn't exist"))
   | row :: _ => Cb STATUS.OK (Some (BEntity (Transaction row)))
   end, w).
Proof.
  intros H. unfold receiver.get. quiet w H.
  by destruct (transactions_by_external_id _ _).
Qed.

Lemma process_fresh params w account rest e r c :
  faults w = [] →
  sql_text P (params !! "id") = Some e →
  sql_text P (params !! "requisite") = Some r →
  sql_numeric P (params !! "amount") = SqlVal c →
  accounts_by_requisite (Some r) (accounts w) = account :: rest →
  (String.length e ≤ 24)%nat → (String.length r ≤ 32)%nat → 0 < c < 10 ^ 8 →
  filter (λ x, external_id x = e) (transactions w) = [] →
  (∀ x, x ∈ accounts w → acc_id x = acc_id account →
        0 ≤ balance x + c < 10 ^ 12) →
  receiver.process P params w =
  (Cb STATUS.OK None,
   mkWorld (moved Z.add c (acc_id account) (accounts w))
           (transactions w ++
            [mkRow (transactions_id_seq w + 1) e (acc_id account) r c success
                   None (clock w) (Some (clock w)) None])
           (transactions_id_seq w + 1) (clock w + 1) []).
Proof.
  intros H He Hr Hc Hsel ? ? ? Hfresh Hupd. unfold receiver.process.
  rewrite He, Hr, Hc. quiet w H. simpl in *. rewrite Hsel.
  unfold INSERT_transaction. simpl.
  rewrite new_transaction_ok; try done.
  - simpl. unfold UPDATE_accounts_balance.
    replace (numeric_fits 8 c) with true
      by (symmetry; apply Z.ltb_lt; lia).
    simpl. by rewrite update_accounts_ok.
  - assert (account ∈ filter (λ a, acc_requisite a = r) accs) as Hin
      by (unfold accounts_by_requisite in Hsel; rewrite Hsel; left).
    apply list_elem_of_filter in Hin as [_ Hin]. intros Hn.
    assert (account ∈ filter (λ x, acc_id x = acc_id account) accs) as Hf
      by (by apply list_elem_of_filter).
    rewrite Hn in Hf. by apply elem_of_nil in Hf.
Qed.

Lemma process_replay params w account rest e r c :
  faults w = [] →
  sql_text P (params !! "id") = Some e →
  sql_text P (params !! "requisite") = Some r →
  sql_numeric P (params !! "amount") = SqlVal c →
  accounts_by_requisite (Some r) (accounts w) = account :: rest →
  (String.length e ≤ 24)%nat → (String.length r ≤ 32)%nat → 0 < c < 10 ^ 8 →
  filter (λ x, external_id x = e) (transactions w) ≠ [] →
  receiver.process P params w =
  (Cb STATUS.OK None,
   mkWorld (accounts w) (transactions w)
           (transactions_id_seq w + 1) (clock w + 1) []).
Proof.
  intros H He Hr Hc Hsel ? ? ? Hdup. unfold receiver.process.
  rewrite He, Hr, Hc. quiet w H. simpl in *. rewrite Hsel.
  unfold INSERT_transaction. simpl.
  by rewrite new_transaction_duplicate.
Qed.

Lemma cancel_live id w e row rest :
  faults w = [] →
  sql_text P id = Some e →
  filter (λ x, external_id x = e) (transactions w) = row :: rest →
  status row ≠ cancelled →
  0 < amount row < 10 ^ 8 →
  (∀ x, x ∈ accounts w → acc_id x = account_id row →
        0 ≤ balance x - amount row < 10 ^ 12) →
  receiver.cancel P id w =
  (Cb STATUS.OK None,
   mkWorld (moved Z.sub (amount row) (account_id row) (accounts w))
           (cancelled_in e (transactions w))
           (transactions_id_seq w) (clock w + 1) []).
Proof.
  intros H He Hsel Hst Hc Hupd. unfold receiver.cancel.
  rewrite He. quiet w H. simpl in *.
  unfold transactions_by_external_id. rewrite Hsel.
  rewrite decide_False by done.
  unfold UPDATE_accounts_balance.
  replace (numeric_fits 8 (amount row)) with true
    by (symmetry; apply Z.ltb_lt; lia).
  simpl. by rewrite update_accounts_ok.
Qed.

Lemma cancel_again id w e row rest :
  faults w = [] →
  sql_text P id = Some e →
  filter (λ x, external_id x = e) (transactions w) = row :: rest →
  status row = cancelled →
  receiver.cancel P id w =
  (Cb STATUS.OK None,
   mkWorld (accounts w) (transactions w) (transactions_id_seq w)
           (clock w + 1) []).
Proof.
  intros H He Hsel Hst. unfold receiver.cancel.
  rewrite He. quiet w H. simpl in *.
  unfold transactions_by_external_id. rewrite Hsel.
  by rewrite decide_True.
Qed.

Lemma cancel_absent id w :
  faults w = [] →
  transactions_by_external_id (sql_text P id) (transactions w) = [] →
  receiver.cancel P id w =
  (Cb STATUS.NOT_FOUND None,
   mkWorld (accounts w) (transactions w) (transactions_id_seq w)
           (clock w + 1) []).
Proof.
  intros H Hsel. unfold receiver.cancel. quiet w H. simpl in *.
  by rewrite Hsel.
Qed.

End Quiet.

(** ** The orchestrator, for every implementation *)

Section Orchestrator.
Import PaymentReceiver.
Context (P : Platform) {St : Type} (self : Implementation St).

Lemma params_id (req : Request) :
  merge2 (body req) (req_params req) !! "id" = Some (JStr (route_id req)).
Proof.
  unfold merge2, req_params. apply lookup_union_Some_l.
  apply lookup_singleton_eq.
Qed.

Lemma params_body (req : Request) (k : string) :
  k ≠ "id" → merge2 (body req) (req_params req) !! k = body req !! k.
Proof.
  intros Hk. unfold merge2, req_params. apply lookup_union_r.
  by apply lookup_singleton_ne.
Qed.

Lemma process_params_id req t :
  process_params req t !! "id" = Some (JStr (route_id req)).
Proof.
  unfold process_params. rewrite lookup_insert_ne by done. apply params_id.
Qed.

Lemma process_params_body req t (k : string) :
  k ≠ "id" → k ≠ "timestamp" → process_params req t !! k = body req !! k.
Proof.
  intros. unfold process_params. rewrite lookup_insert_ne by done.
  by apply params_body.
Qed.

(** A request that passes the parameter checks goes on to [validate]. *)
Lemma post_transaction_checked req s t :
  truthy (body req !! "amount") = true →
  truthy (body req !! "timestamp") = true →
  new_Date P (body req !! "timestamp") = Some t →
  post_transaction P self req s =
  match validate self (process_params req t) s with
  | (Cb status b, s1) =>
    if decide (status ≠ STATUS.OK)
    then (respond status b, [Validate (process_params req t)], s1)
    else let '(res, calls, s2) := after_validate self (process_params req t) s1 in
         (res, Validate (process_params req t) :: calls, s2)
  | (cb, s1) => (responded cb, [Validate (process_params req t)], s1)
  end.
Proof.
  intros Ha Ht Hd. unfold post_transaction.
  rewrite !params_body by done. rewrite Ha, Ht, Hd. simpl.
  fold (process_params req t).
  by destruct (validate self (process_params req t) s) as [[] ?].
Qed.

(** Past the parameter checks the log opens with the one call to
    [validate]; nothing after it is a [validate]. *)
Lemma post_transaction_calls req s t :
  truthy (body req !! "amount") = true →
  truthy (body req !! "timestamp") = true →
  new_Date P (body req !! "timestamp") = Some t →
  ∃ res rest s',
    post_transaction P self req s = (res, Validate (process_params req t) :: rest, s')
    ∧ Forall (λ c, is_validate c = false) rest
    ∧ ((∀ b, (validate self (process_params req t) s).1 ≠ Cb STATUS.OK b) →
       rest = [] ∧ res = responded (validate self (process_params req t) s).1
       ∧ s' = (validate self (process_params req t) s).2).
Proof.
  intros Ha Ht Hd. rewrite (post_transaction_checked _ _ t) by done.
  destruct (validate self (process_params req t) s) as [[err|status b|] s1];
    simpl; [by eauto 10| |by eauto 10].
  case_decide as Hst; [by eauto 10|].
  subst status. unfold after_validate.
  destruct (process self _ s1) as [[err|status' b'|] s2];
    [eexists _, _, _; split_and!;
       [done|by repeat constructor|intros Hn; by destruct (Hn b)]|
     |eexists _, _, _; split_and!;
       [done|by repeat constructor|intros Hn; by destruct (Hn b)]].
  case_decide.
  - destruct (get self _ s2) as [[err|status'' b''|] s3];
      eexists _, _, _; split_and!;
        try done; try (by repeat constructor); intros Hn; by destruct (Hn b).
  - eexists _, _, _; split_and!;
      [done|by repeat constructor|intros Hn; by destruct (Hn b)].
Qed.

(** Every call of the POST handler carries the id of the path. *)
Lemma post_transaction_call_ids req s :
  Forall (λ c, call_id c = Some (JStr (route_id req)))
         (post_transaction P self req s).1.2.
Proof.
  unfold post_transaction.
  destruct (negb (truthy (_ !! "amount"))); [by constructor|].
  destruct (negb (truthy (_ !! "timestamp"))); [by constructor|].
  destruct (new_Date _) as [t|]; [|by constructor].
  fold (process_params req t).
  pose proof (process_params_id req t) as Hid.
  destruct (validate self _ s) as [[err|status b|] s1]; simpl;
    [by repeat constructor| |by repeat constructor].
  case_decide; [by repeat constructor|]. unfold after_validate.
  destruct (process self _ s1) as [[err|status' b'|] s2]; simpl;
    [by repeat constructor| |by repeat constructor].
  case_decide; [|by repeat constructor].
  rewrite Hid.
  destruct (get self _ s2) as [[err|status'' b''|] s3]; simpl;
    by repeat constructor.
Qed.

(** What the POST handler does with the callback of [process]. *)
Lemma post_transaction_completion req s t b s1 cb s2 :
  truthy (body req !! "amount") = true →
  truthy (body req !! "timestamp") = true →
  new_Date P (body req !! "timestamp") = Some t →
  validate self (process_params req t) s = (Cb STATUS.OK b, s1) →
  process self (process_params req t) s1 = (cb, s2) →
  post_transaction P self req s =
  match cb with
  | Cb status body =>
    if decide (status = STATUS.OK) then
      let '(g, s3) := get self (Some (JStr (route_id req))) s2 in
      (responded g,
       [Validate (process_params req t); Process (process_params req t);
        Get (Some (JStr (route_id req)))], s3)
    else
      (respond status body,
       [Validate (process_params req t); Process (process_params req t)], s2)
  | _ =>
    (responded cb,
     [Validate (process_params req t); Process (process_params req t)], s2)
  end.
Proof.
  intros Ha Ht Hd Hv Hp. rewrite (post_transaction_checked _ _ t) by done.
  rewrite Hv. rewrite decide_False by (by intros []).
  unfold after_validate. rewrite Hp, process_params_id.
  destruct cb as [err|status body|]; [done| |done].
  case_decide; [|done].
  by destruct (get self _ s2) as [[] ?].
Qed.

(** What the DELETE handler does with the callback of [cancel]. *)
Lemma delete_transaction_completion req s cb s1 :
  cancel self (Some (JStr (route_id req))) s = (cb, s1) →
  delete_transaction self req s =
  match cb with
  | Cb status body =>
    if decide (status = STATUS.OK) then
      let '(g, s2) := get self (Some (JStr (route_id req))) s1 in
      (sent g,
       [Cancel (Some (JStr (route_id req))); Get (Some (JStr (route_id req)))],
       s2)
    else (respond status body, [Cancel (Some (JStr (route_id req)))], s1)
  | _ => (responded cb, [Cancel (Some (JStr (route_id req)))], s1)
  end.
Proof.
  intros Hc. unfold delete_transaction, req_params.
  rewrite lookup_singleton_eq, Hc.
  destruct cb as [err|status body|]; [done| |done].
  case_decide; [|done].
  by destruct (get self _ s1) as [[] ?].
Qed.

End Orchestrator.

(** ** The example behind the orchestrator *)

Section Example.
Context (P : Platform).

Lemma validate_tables params w : same_tables w (receiver.validate P params w).2.
Proof.
  unfold receiver.validate, connect, client_query.
  step_rt; [done|]. step_rt; [done|].
  destruct (accounts_by_requisite _ _); [done|]. by case_decide.
Qed.

Lemma get_tables id w : same_tables w (receiver.get P id w).2.
Proof.
  unfold receiver.get, connect, client_query.
  step_rt; [done|]. step_rt; [done|].
  by destruct (transactions_by_external_id _ _).
Qed.

Lemma list_tables query w : same_tables w (receiver.list P query w).2.
Proof.
  unfold receiver.list, connect, client_query.
  step_rt; [done|]. step_rt; [done|].
  repeat case_match; done.
Qed.

Lemma nonnegative_same_tables w w' :
  same_tables w w' → nonnegative w → nonnegative w'.
Proof. intros [Ha _]. unfold nonnegative. by rewrite Ha. Qed.

Lemma nonnegative_moved op c a l l' :
  update_accounts op c a l = inr l' →
  Forall (λ x, 0 ≤ balance x) l → Forall (λ x, 0 ≤ balance x) l'.
Proof.
  intros [-> Hb]%update_accounts_inr Hl.
  rewrite Forall_forall in Hl. apply Forall_forall.
  intros y (x & Hx & _ & _ & _ & ->)%elem_of_moved.
  case_decide; [by apply Hb|by apply Hl].
Qed.

Lemma nonnegative_process params w :
  nonnegative w → nonnegative (receiver.process P params w).2.
Proof.
  intros Hw. destruct (receiver.process P params w) as [cb w'] eqn:Hp.
  destruct (process_tables P _ _ _ _ Hp)
    as [Hs|(_ & account & c & row & _ & _ & _ & Hupd & _)].
  - by eapply nonnegative_same_tables.
  - by eapply nonnegative_moved.
Qed.

Lemma nonnegative_cancel id w :
  nonnegative w → nonnegative (receiver.cancel P id w).2.
Proof.
  intros Hw. destruct (receiver.cancel P id w) as [cb w'] eqn:Hp.
  destruct (cancel_tables P _ _ _ _ Hp)
    as [Hs|(_ & e & row & rest & _ & _ & _ & Hupd & _)].
  - by eapply nonnegative_same_tables.
  - by eapply nonnegative_moved.
Qed.

(** A property of the tables that [process] and [cancel] keep is kept by
    every request. *)
Lemma serve_invariant (I : World → Prop) h w :
  (∀ w w', same_tables w w' → I w → I w') →
  (∀ params w, I w → I (receiver.process P params w).2) →
  (∀ id w, I w → I (receiver.cancel P id w).2) →
  I w → I (serve P h w).2.
Proof.
  intros Hsame Hprocess Hcancel Hw.
  destruct h as [req|req|req|req|req]; simpl.
  - unfold PaymentReceiver.post_validate.
    destruct (negb _); [done|]. simpl.
    pose proof (validate_tables (PaymentReceiver.body req) w) as Hv.
    destruct (receiver.validate P _ w) as [[] ?];
      by eapply Hsame.
  - unfold PaymentReceiver.post_transaction.
    destruct (negb _); [done|]. destruct (negb _); [done|].
    destruct (PaymentReceiver.new_Date _ _) as [t|]; [|done]. simpl.
    set (params := <[ "timestamp" := JDate t ]> _).
    pose proof (validate_tables params w) as Hv.
    destruct (receiver.validate P params w) as [[err|status b|] w1]; simpl;
      try (by eapply Hsame).
    case_decide; [by eapply Hsame|].
    apply (Hsame _ _ Hv) in Hw.
    unfold PaymentReceiver.after_validate. simpl.
    pose proof (Hprocess params w1 Hw) as Hp.
    destruct (receiver.process P params w1) as [[err|status' b'|] w2]; simpl;
      try done.
    case_decide; [|done].
    pose proof (get_tables (params !! "id") w2) as Hg.
    destruct (receiver.get P _ w2) as [[] ?];
      by eapply Hsame.
  - unfold PaymentReceiver.get_transaction. simpl.
    pose proof (get_tables (PaymentReceiver.req_params req !! "id") w) as Hg.
    destruct (receiver.get P _ w) as [[] ?];
      by eapply Hsame.
  - unfold PaymentReceiver.delete_transaction. simpl.
    set (id := PaymentReceiver.req_params req !! "id").
    pose proof (Hcancel id w Hw) as Hc.
    destruct (receiver.cancel P id w) as [[err|status b|] w1]; simpl; try done.
    case_decide; [|done].
    pose proof (get_tables id w1) as Hg.
    destruct (receiver.get P _ w1) as [[] ?];
      by eapply Hsame.
  - unfold PaymentReceiver.get_transactions.
    destruct (negb _); [done|].
    destruct (PaymentReceiver.new_Date _ _) as [b|]; [|done].
    match goal with
    | |- context [match ?x with Some _ => _ | None => _ end] =>
      destruct x as [query|]; [|done]
    end.
    simpl. pose proof (list_tables query w) as Hl.
    destruct (receiver.list P query w) as [[] ?];
      by eapply Hsame.
Qed.

Lemma nonnegative_serve h w :
  nonnegative w → nonnegative (serve P h w).2.
Proof.
  apply serve_invariant;
    [apply nonnegative_same_tables|apply nonnegative_process
    |apply nonnegative_cancel].
Qed.

(** Every store the server reaches from a consistent one is consistent. *)
Lemma consistent_serve h w : consistent w → consistent (serve P h w).2.
Proof.
  apply serve_invariant.
  - apply consistent_same_tables.
  - intros params w0 Hw.
    destruct (receiver.process P params w0) eqn:Hp. by eapply consistent_process.
  - intros id w0 Hw.
    destruct (receiver.cancel P id w0) eqn:Hp. by eapply consistent_cancel.
Qed.

Lemma consistent_served hs w : consistent w → consistent (served P hs w).
Proof.
  revert w. induction hs as [|h hs IH]; intros w Hw; [done|].
  simpl. apply IH. by apply consistent_serve.
Qed.

End Example.

(** ** Listing *)

Section Listing.
Context (P : Platform).

Lemma list_quiet query w b e :
  faults w = [] →
  query !! "begin" = Some (JDate b) →
  end_given query e →
  receiver.list P query w =
  (Cb STATUS.OK
      (Some (BList (map Transaction (transactions_completed b e (transactions w))))),
   w).
Proof.
  intros H Hb He. unfold receiver.list, receiver.completed_range.
  rewrite Hb. destruct w as [accs rows k now fs]. simpl in H. subst fs.
  unfold connect, client_query, round_trip. simpl.
  destruct e as [e|]; simpl in He; rewrite He; [|done].
  done.
Qed.

Lemma elem_of_transactions_completed b e l r :
  r ∈ transactions_completed b e l ↔
  r ∈ l ∧ ∃ t, completed r = Some t ∧ b ≤ t ∧ ∀ e', e = Some e' → t ≤ e'.
Proof.
  unfold transactions_completed. rewrite list_elem_of_filter.
  unfold completed_within. split.
  - intros [Hc Hr]. split; [done|].
    destruct (completed r) as [t|]; [|done]. exists t.
    destruct e as [e|]; [|by split_and!].
    destruct Hc. split_and!; try done. intros ? [= <-]. done.
  - intros [Hr (t & -> & Hb & He)]. split; [|done].
    destruct e as [e|]; [|done]. split; [done|]. by apply He.
Qed.

End Listing.

(** ** Failing round trips and refused statements in [process] *)

Section Failures.
Context (P : Platform).

Lemma process_error_tables params w err w' :
  receiver.process P params w = (CbErr err, w') → same_tables w w'.
Proof.
  intros Hp. by destruct (process_tables P _ _ _ _ Hp) as [?|[? _]].
Qed.

Lemma process_failing params w k err rest :
  faults w = failing_at k err rest →
  process_reaches P params w k →
  (k = AtInsert → isDuplicateIdConstraint err = false) →
  ∃ w', receiver.process P params w = (CbErr err, w').
Proof.
  destruct w as [accs rows seq now fs]. simpl. intros -> Hr Hd.
  unfold receiver.process, db_transaction, connect, txn_query, txn_commit,
    txn_abort, round_trip.
  destruct k; simpl in *; eauto.
  - destruct (accounts_by_requisite _ _) as [|account ?]; [done|].
    rewrite Hd by done. eauto.
  - destruct Hr as (account & ? & row & -> & Hins).
    unfold INSERT_transaction. simpl. rewrite Hins.
    apply new_transaction_inr in Hins as (_ & _ & c & _ & _ & -> & _).
    simpl. eauto.
  - destruct Hr as (account & ? & row & c & l & -> & Hc & Hins & Hupd).
    unfold INSERT_transaction, UPDATE_accounts_balance. rewrite Hc. simpl.
    rewrite Hins. simpl.
    apply new_transaction_inr in Hins as (_ & _ & c' & _ & _ & ? & _ & _ & Hfit & _).
    simplify_eq.
    replace (numeric_fits 8 c') with true by (symmetry; apply Z.ltb_lt; lia).
    simpl. rewrite Hupd. simpl. eauto.
Qed.

Lemma process_insert_refused params w account rest err :
  faults w = [] →
  accounts_by_requisite (sql_text P (params !! "requisite")) (accounts w)
  = account :: rest →
  (INSERT_transaction (sql_text P (params !! "id")) (acc_id account)
     (sql_text P (params !! "requisite")) (sql_numeric P (params !! "amount"))
     (mkTxn (clock w) (accounts w) (transactions w) false) w).1 = inl err →
  isDuplicateIdConstraint err = false →
  ∃ w', receiver.process P params w = (CbErr err, w').
Proof.
  destruct w as [accs rows seq now fs]. simpl. intros -> Hsel Hins Hd.
  unfold receiver.process, db_transaction, connect, txn_query, txn_commit,
    txn_abort, round_trip. simpl. rewrite Hsel.
  unfold INSERT_transaction in *. simpl in *.
  destruct (sql_numeric P (params !! "amount")) as [|err'|c] eqn:Hc;
    simpl in *.
  - destruct (new_transaction _ _ _ _ _ _ _ _); simplify_eq/=.
    rewrite Hd. eauto.
  - simplify_eq. rewrite Hd. eauto.
  - destruct (new_transaction _ _ _ _ _ _ _ _); simplify_eq/=.
    rewrite Hd. eauto.
Qed.

Lemma process_update_refused params w account rest row c err :
  faults w = [] →
  accounts_by_requisite (sql_text P (params !! "requisite")) (accounts w)
  = account :: rest →
  sql_numeric P (params !! "amount") = SqlVal c →
  new_transaction (transactions_id_seq w + 1) (clock w)
    (sql_text P (params !! "id")) (acc_id account)
    (sql_text P (params !! "requisite")) (SqlVal c)
    (accounts w) (transactions w) = inr row →
  update_accounts Z.add c (acc_id account) (accounts w) = inl err →
  ∃ w', receiver.process P params w = (CbErr err, w').
Proof.
  destruct w as [accs rows seq now fs]. simpl. intros -> Hsel Hc Hins Hupd.
  unfold receiver.process, db_transaction, connect, txn_query, txn_commit,
    txn_abort, round_trip. simpl. rewrite Hsel, Hc.
  unfold INSERT_transaction, UPDATE_accounts_balance. simpl. rewrite Hins.
  apply new_transaction_inr in Hins as (_ & _ & c' & _ & _ & ? & _ & _ & Hfit & _).
  simplify_eq.
  replace (numeric_fits 8 c') with true by (symmetry; apply Z.ltb_lt; lia).
  simpl. rewrite Hupd. simpl. eauto.
Qed.

End Failures.

(** ** Keys select one row *)

Lemma filter_key_unique {A B : Type} `{EqDecision B} (f : A → B) (l : list A) x :
  NoDup (map f l) → x ∈ l → filter (λ y, f y = f x) l = [x].
Proof.
  induction l as [|y l IH]; intros Hnd Hin; [by apply elem_of_nil in Hin|].
  simpl in Hnd. apply NoDup_cons in Hnd as [Hy Hnd]. rewrite filter_cons.
  apply elem_of_cons in Hin as [<-|Hin].
  - rewrite decide_True by done. f_equal.
    destruct (filter _ l) as [|z ?] eqn:Hz; [done|]. exfalso. apply Hy.
    assert (z ∈ filter (λ y, f y = f x) l) as Hin by (rewrite Hz; left).
    apply list_elem_of_filter in Hin as [<- Hin].
    apply list_elem_of_fmap. eauto.
  - rewrite decide_False; [by apply IH|].
    intros Heq. apply Hy. rewrite Heq. apply list_elem_of_fmap. eauto.
Qed.

Lemma filter_moved_id op c a a' l :
  filter (λ x, acc_id x = a') (moved op c a l)
  = moved op c a (filter (λ x, acc_id x = a') l).
Proof.
  induction l as [|x l IH]; [done|]. unfold moved in *. simpl.
  destruct (decide (acc_id x = a)); rewrite !filter_cons; simpl; rewrite IH;
    repeat (destruct (decide _); simpl; try done).
Qed.

Lemma filter_moved_requisite op c a r l :
  filter (λ x, acc_requisite x = r) (moved op c a l)
  = moved op c a (filter (λ x, acc_requisite x = r) l).
Proof.
  induction l as [|x l IH]; [done|]. unfold moved in *. simpl.
  destruct (decide (acc_id x = a)); rewrite !filter_cons; simpl; rewrite IH;
    repeat (destruct (decide _); simpl; try done).
Qed.

Lemma moved_other op c a l :
  (∀ x, x ∈ l → acc_id x ≠ a) → moved op c a l = l.
Proof.
  induction l as [|x l IH]; intros H; [done|]. unfold moved in *. simpl.
  rewrite decide_False by (apply H; left). f_equal.
  apply IH. intros. apply H. by right.
Qed.

Lemma filter_cancelled_in e e' l :
  filter (λ r, external_id r = e') (cancelled_in e l)
  = cancelled_in e (filter (λ r, external_id r = e') l).
Proof.
  induction l as [|x l IH]; [done|]. unfold cancelled_in in *. simpl.
  destruct (decide (Some (external_id x) = Some e)); rewrite !filter_cons;
    simpl; rewrite IH; repeat (destruct (decide _); simpl; try done).
Qed.

Lemma balance_of_moved op c a a' w w' :
  accounts w' = moved op c a (accounts w) →
  balance_of a' w'
  = (λ b, if decide (a' = a) then op b c else b) <$> balance_of a' w.
Proof.
  intros Ha. unfold balance_of. rewrite Ha, filter_moved_id.
  destruct (filter _ (accounts w)) as [|x l] eqn:Hf; [done|].
  assert (x ∈ filter (λ x, acc_id x = a') (accounts w)) as Hin
    by (rewrite Hf; left).
  apply list_elem_of_filter in Hin as [<- _].
  unfold moved. simpl. by destruct (decide (acc_id x = a)).
Qed.

Lemma balance_of_elem a w :
  NoDup (map acc_id (accounts w)) → a ∈ accounts w →
  balance_of (acc_id a) w = Some (balance a).
Proof.
  intros Hnd Hin. unfold balance_of.
  by rewrite (filter_key_unique acc_id).
Qed.

(** ** One notification, delivered again and again *)

Section Replay.
Import PaymentReceiver.
Context (P : Platform).

Lemma post_fresh req w t r c account rest :
  faults w = [] →
  body req !! "requisite" = Some (JStr r) →
  body req !! "amount" = Some (JNum c) →
  truthy (body req !! "timestamp") = true →
  new_Date P (body req !! "timestamp") = Some t →
  accounts_by_requisite (Some r) (accounts w) = account :: rest →
  acc_status account = active →
  (String.length (route_id req) ≤ 24)%nat → (String.length r ≤ 32)%nat →
  0 < c < 10 ^ 8 →
  filter (λ x, external_id x = route_id req) (transactions w) = [] →
  (∀ x, x ∈ accounts w → acc_id x = acc_id account →
        0 ≤ balance x + c < 10 ^ 12) →
  answer (post_transaction P (receiver.implementation P) req) w =
  (send STATUS.OK (Some (BEntity (Transaction (stored req w (acc_id account) r c)))),
   mkWorld (moved Z.add c (acc_id account) (accounts w))
           (transactions w ++ [stored req w (acc_id account) r c])
           (transactions_id_seq w + 1) (clock w + 1) []).
Proof.
  intros Hq Hr Hc Ht Hd Hsel Hact He Hlr Hc' Hfresh Hbal.
  assert (truthy (body req !! "amount") = true) as Ha.
  { rewrite Hc. simpl. apply negb_true_iff, Z.eqb_neq. lia. }
  assert (sql_text P (process_params req t !! "requisite") = Some r) as Hsr.
  { by rewrite process_params_body, Hr. }
  assert (sql_text P (process_params req t !! "id") = Some (route_id req)) as Hsi.
  { by rewrite process_params_id. }
  assert (sql_numeric P (process_params req t !! "amount") = SqlVal c) as Hsc.
  { by rewrite process_params_body, Hc. }
  unfold answer.
  erewrite (post_transaction_completion P _ req w t); try done; cycle 1.
  - simpl. rewrite validate_quiet by done. rewrite Hsr, Hsel. simpl.
    rewrite Hact. reflexivity.
  - simpl. by erewrite process_fresh.
  - simpl. rewrite get_quiet by done. simpl.
    unfold transactions_by_external_id. unfold sql_text.
    rewrite filter_app, Hfresh. simpl. rewrite filter_cons. simpl.
    by rewrite decide_True.
Qed.

Lemma post_replay req w t r c account rest row rows :
  faults w = [] →
  body req !! "requisite" = Some (JStr r) →
  body req !! "amount" = Some (JNum c) →
  truthy (body req !! "timestamp") = true →
  new_Date P (body req !! "timestamp") = Some t →
  accounts_by_requisite (Some r) (accounts w) = account :: rest →
  acc_status account = active →
  (String.length (route_id req) ≤ 24)%nat → (String.length r ≤ 32)%nat →
  0 < c < 10 ^ 8 →
  filter (λ x, external_id x = route_id req) (transactions w) = row :: rows →
  answer (post_transaction P (receiver.implementation P) req) w =
  (send STATUS.OK (Some (BEntity (Transaction row))),
   mkWorld (accounts w) (transactions w)
           (transactions_id_seq w + 1) (clock w + 1) []).
Proof.
  intros Hq Hr Hc Ht Hd Hsel Hact He Hlr Hc' Hdup.
  assert (truthy (body req !! "amount") = true) as Ha.
  { rewrite Hc. simpl. apply negb_true_iff, Z.eqb_neq. lia. }
  assert (sql_text P (process_params req t !! "requisite") = Some r) as Hsr.
  { by rewrite process_params_body, Hr. }
  assert (sql_text P (process_params req t !! "id") = Some (route_id req)) as Hsi.
  { by rewrite process_params_id. }
  assert (sql_numeric P (process_params req t !! "amount") = SqlVal c) as Hsc.
  { by rewrite process_params_body, Hc. }
  unfold answer.
  erewrite (post_transaction_completion P _ req w t); try done; cycle 1.
  - simpl. rewrite validate_quiet by done. rewrite Hsr, Hsel. simpl.
    rewrite Hact. reflexivity.
  - simpl. erewrite process_replay; try done. by rewrite Hdup.
  - simpl. rewrite get_quiet by done. simpl.
    unfold transactions_by_external_id. unfold sql_text. by rewrite Hdup.
Qed.

Lemma post_replays req t r c account rest row rows n :
  ∀ w,
  faults w = [] →
  body req !! "requisite" = Some (JStr r) →
  body req !! "amount" = Some (JNum c) →
  truthy (body req !! "timestamp") = true →
  new_Date P (body req !! "timestamp") = Some t →
  accounts_by_requisite (Some r) (accounts w) = account :: rest →
  acc_status account = active →
  (String.length (route_id req) ≤ 24)%nat → (String.length r ≤ 32)%nat →
  0 < c < 10 ^ 8 →
  filter (λ x, external_id x = route_id req) (transactions w) = row :: rows →
  ∃ w',
    repeat_call n (answer (post_transaction P (receiver.implementation P) req)) w
    = (replicate n (send STATUS.OK (Some (BEntity (Transaction row)))), w')
    ∧ same_tables w w' ∧ faults w' = [].
Proof.
  induction n as [|n IH]; intros w Hq Hr Hc Ht Hd Hsel Hact He Hlr Hc' Hdup.
  { by exists w. }
  simpl. erewrite post_replay by done.
  edestruct (IH (mkWorld (accounts w) (transactions w)
                         (transactions_id_seq w + 1) (clock w + 1) []))
    as (w' & -> & Hs & Hf); try done.
  by exists w'.
Qed.

End Replay.

(** ** Cancelling, again and again *)

Section Cancelling.
Import PaymentReceiver.
Context (P : Platform).

Lemma delete_live req w row rest :
  faults w = [] →
  filter (λ x, external_id x = route_id req) (transactions w) = row :: rest →
  status row ≠ cancelled →
  0 < amount row < 10 ^ 8 →
  (∀ x, x ∈ accounts w → acc_id x = account_id row →
        0 ≤ balance x - amount row < 10 ^ 12) →
  answer (delete_transaction (receiver.implementation P) req) w =
  (send STATUS.OK (Some (BEntity (Transaction (set_cancelled row)))),
   mkWorld (moved Z.sub (amount row) (account_id row) (accounts w))
           (cancelled_in (route_id req) (transactions w))
           (transactions_id_seq w) (clock w + 1) []).
Proof.
  intros Hq Hsel Hst Hc Hbal. unfold answer.
  erewrite delete_transaction_completion; cycle 1.
  - simpl. by erewrite cancel_live.
  - simpl. rewrite get_quiet by done. simpl.
    unfold transactions_by_external_id, sql_text.
    rewrite filter_cancelled_in, Hsel. unfold cancelled_in. simpl.
    assert (external_id row = route_id req) as ->; [|by rewrite decide_True].
    assert (row ∈ filter (λ x, external_id x = route_id req) (transactions w))
      as Hin by (rewrite Hsel; left).
    by apply list_elem_of_filter in Hin as [? _].
Qed.

Lemma delete_again req w row rest :
  faults w = [] →
  filter (λ x, external_id x = route_id req) (transactions w) = row :: rest →
  status row = cancelled →
  answer (delete_transaction (receiver.implementation P) req) w =
  (send STATUS.OK (Some (BEntity (Transaction row))),
   mkWorld (accounts w) (transactions w) (transactions_id_seq w)
           (clock w + 1) []).
Proof.
  intros Hq Hsel Hst. unfold answer.
  erewrite delete_transaction_completion; cycle 1.
  - simpl. by erewrite cancel_again.
  - simpl. rewrite get_quiet by done. simpl.
    unfold transactions_by_external_id, sql_text. by rewrite Hsel.
Qed.

Lemma delete_agains req row rest n :
  ∀ w,
  faults w = [] →
  filter (λ x, external_id x = route_id req) (transactions w) = row :: rest →
  status row = cancelled →
  ∃ w',
    repeat_call n (answer (delete_transaction (receiver.implementation P) req)) w
    = (replicate n (send STATUS.OK (Some (BEntity (Transaction row)))), w')
    ∧ same_tables w w' ∧ faults w' = [].
Proof.
  induction n as [|n IH]; intros w Hq Hsel Hst.
  { by exists w. }
  simpl. erewrite delete_again by done.
  edestruct (IH (mkWorld (accounts w) (transactions w)
                         (transactions_id_seq w) (clock w + 1) []))
    as (w' & -> & Hs & Hf); try done.
  by exists w'.
Qed.

Lemma delete_absent req w :
  faults w = [] →
  filter (λ x, external_id x = route_id req) (transactions w) = [] →
  delete_transaction (receiver.implementation P) req w =
  (sendStatus STATUS.NOT_FOUND, [Cancel (Some (JStr (route_id req)))],
   mkWorld (accounts w) (transactions w) (transactions_id_seq w)
           (clock w + 1) []).
Proof.
  intros Hq Hsel.
  erewrite delete_transaction_completion; cycle 1.
  - simpl. by erewrite cancel_absent.
  - done.
Qed.

End Cancelling.

(** ** Covered credits *)

Lemma credited_nonneg a l :
  (∀ r, r ∈ l → 0 < amount r) → 0 ≤ credited a l.
Proof.
  induction l as [|x l IH]; intros H; simpl; [done|].
  assert (0 < amount x) by (apply H; left).
  assert (0 ≤ credited a l) by (apply IH; intros; apply H; by right).
  case_decide; lia.
Qed.

Lemma amount_le_credited l row :
  (∀ r, r ∈ l → 0 < amount r) → row ∈ l → status row ≠ cancelled →
  amount row ≤ credited (account_id row) l.
Proof.
  induction l as [|x l IH]; intros H Hrow Hst.
  - by apply elem_of_nil in Hrow.
  - simpl.
    assert (0 ≤ credited (account_id row) l)
      by (apply credited_nonneg; intros; apply H; by right).
    assert (0 < amount x) by (apply H; left).
    apply elem_of_cons in Hrow as [<-|Hrow].
    + rewrite decide_True by done. lia.
    + assert (amount row ≤ credited (account_id row) l)
        by (apply IH; [intros; apply H; by right|done|done]).
      case_decide; lia.
Qed.

(** On a consistent store the owner of a live entry can pay it back. *)
Lemma covered_by_owner w row owner :
  consistent w → row ∈ transactions w → status row ≠ cancelled →
  owner ∈ accounts w → acc_id owner = account_id row →
  0 ≤ balance owner - amount row < 10 ^ 12.
Proof.
  intros [Hpk Hrq Hex Hac Htc Hfk Hcov] Hrow Hst Hown Hid.
  destruct (Hac owner Hown) as [_ Hb]. destruct (Htc row Hrow) as [_ Hamt].
  assert (amount row ≤ balance owner); [|lia].
  etrans; [|by apply Hcov]. rewrite Hid.
  apply amount_le_credited; [|done|done]. intros r Hr. by apply Htc.
Qed.

(** Two rows of a table with the same key are one row. *)
Lemma key_unique {A B : Type} `{EqDecision B} (f : A → B)
    (l : list A) x y :
  NoDup (map f l) → x ∈ l → y ∈ l → f y = f x → y = x.
Proof.
  intros Hnd Hx Hy Hf.
  assert (y ∈ filter (λ z, f z = f x) l) as Hin by (by apply list_elem_of_filter).
  rewrite (filter_key_unique f) in Hin by done.
  by apply list_elem_of_singleton in Hin.
Qed.

(** ** Completion timestamps *)

Section Completion.
Context (P : Platform).

Lemma settled_timely w : settled w → timely w.
Proof. intros Hs r Hr. destruct (Hs r Hr). done. Qed.

Lemma settled_process params w :
  settled w → settled (receiver.process P params w).2.
Proof.
  intros Hs. destruct (receiver.process P params w) as [cb w'] eqn:Hp. simpl.
  destruct (process_tables P _ _ _ _ Hp)
    as [[_ Ht]|(_ & account & c & row & _ & _ & Hins & _ & Hrows)].
  { unfold settled. by rewrite Ht. }
  apply new_transaction_inr in Hins
    as (e & r & c' & _ & _ & _ & _ & _ & _ & _ & _ & ->).
  unfold settled. rewrite Hrows. intros x [Hx|Hx]%elem_of_app; [by apply Hs|].
  apply list_elem_of_singleton in Hx as ->. simpl.
  split; [by eexists|by left].
Qed.

Lemma settled_cancel id w :
  settled w → settled (receiver.cancel P id w).2.
Proof.
  intros Hs. destruct (receiver.cancel P id w) as [cb w'] eqn:Hp. simpl.
  destruct (cancel_tables P _ _ _ _ Hp)
    as [[_ Ht]|(_ & e & row & rest & _ & _ & _ & _ & Hrows)].
  { unfold settled. by rewrite Ht. }
  unfold settled. rewrite Hrows. unfold cancelled_in.
  intros x (y & -> & Hy)%list_elem_of_fmap. destruct (Hs y Hy) as [Hc Ht].
  case_decide; [|done]. simpl. split; [done|]. by right; right.
Qed.

Lemma settled_served hs w : settled w → settled (served P hs w).
Proof.
  revert w. induction hs as [|h hs IH]; intros w Hw; [done|].
  simpl. apply IH. apply serve_invariant; try done.
  - intros w1 w2 [_ Ht]. unfold settled. by rewrite Ht.
  - apply settled_process.
  - apply settled_cancel.
Qed.

(** The entity [get] calls back with OK is built from a ledger row with the
    id asked for, whichever round trips fail. *)
Lemma get_ok_row id w body w' :
  receiver.get P id w = (Cb STATUS.OK body, w') →
  ∃ row, row ∈ transactions w ∧ sql_text P id = Some (external_id row)
         ∧ body = Some (BEntity (Transaction row)).
Proof.
  unfold receiver.get, connect, client_query.
  step_rt; [done|]. step_rt; [done|].
  unfold transactions_by_external_id.
  destruct (sql_text P id) as [e|] eqn:He; [|done].
  destruct (filter _ (transactions w)) as [|row rest] eqn:Hf; [done|].
  intros; simplify_eq. exists row.
  assert (row ∈ filter (λ r, external_id r = e) (transactions w)) as Hin
    by (rewrite Hf; left).
  apply list_elem_of_filter in Hin as [<- ?]. done.
Qed.

End Completion.

(** * The claims *)

Section Claims.
Import PaymentReceiver.

(** C9.  For every request to [POST /api/transactions/:id], whatever the
    body holds under [id], the merged [params.id] is the [:id] of the path,
    and every method the handler calls ([validate], [process], [get]) is
    handed that id. *)
Theorem path_id_overrides_body_id (P : Platform) {St : Type}
    (self : Implementation St) (req : Request) (s : St) :
  merge2 (body req) (req_params req) !! "id" = Some (JStr (route_id req))
  ∧ Forall (λ c, call_id c = Some (JStr (route_id req)))
           (post_transaction P self req s).1.2.
Proof.
  split; [apply params_id|apply post_transaction_call_ids].
Qed.

(** C10.  A request whose [amount] is falsy (absent, [0], ...) is answered
    400 with the `amount` message; one whose [amount] is truthy and whose
    [timestamp] is falsy is answered 400 with the `timestamp` message; in
    both cases no method is called and the store is untouched.  On the
    example, whatever the request, every ledger row a POST leaves behind
    that was not there before has a positive amount. *)
Theorem falsy_amount_and_timestamp_rejected (P : Platform) {St : Type}
    (self : Implementation St) (req : Request) (s : St) (w : World) :
  (truthy (body req !! "amount") = false →
   post_transaction P self req s =
   (send STATUS.BAD_REQUEST (Some (BText "missing parameter `amount`")), [], s))
  ∧ (truthy (body req !! "amount") = true →
     truthy (body req !! "timestamp") = false →
     post_transaction P self req s =
     (send STATUS.BAD_REQUEST (Some (BText "missing parameter `timestamp`")), [], s))
  ∧ (∀ row,
       row ∈ transactions (post_transaction P (receiver.implementation P) req w).2 →
       row ∈ transactions w ∨ 0 < amount row).
Proof.
  split_and!.
  - intros Ha. unfold post_transaction. rewrite params_body by done.
    by rewrite Ha.
  - intros Ha Ht. unfold post_transaction. rewrite !params_body by done.
    by rewrite Ha, Ht.
  - intros row. unfold post_transaction.
    destruct (negb _); [by left|]. destruct (negb _); [by left|].
    destruct (new_Date _ _) as [t|]; [|by left]. simpl.
    set (params := <[ "timestamp" := JDate t ]> _).
    pose proof (validate_tables P params w) as [_ Hv].
    destruct (receiver.validate P params w) as [[err|status b|] w1]; simpl in *;
      try (rewrite Hv; by left).
    case_decide; [simpl; rewrite Hv; by left|].
    unfold after_validate. simpl.
    destruct (receiver.process P params w1) as [cb w2] eqn:Hp.
    assert (row ∈ transactions w2 → row ∈ transactions w ∨ 0 < amount row) as Hw2.
    { destruct (process_tables P _ _ _ _ Hp)
        as [[_ Hs]|(_ & account & c & new & _ & _ & Hins & _ & Hrows)].
      - rewrite Hs, Hv. by left.
      - rewrite Hrows, Hv.
        intros [?| ->%list_elem_of_singleton]%elem_of_app; [by left|right].
        apply new_transaction_inr in Hins as (? & ? & ? & _ & _ & ? & _ & _ & ? & _ & _ & ->).
        simplify_eq. simpl. lia. }
    destruct cb as [err|status' b'|]; simpl; try done.
    case_decide; [|done].
    pose proof (get_tables P (params !! "id") w2) as [_ Hg].
    destruct (receiver.get P _ w2) as [[] ?]; simpl in *; by rewrite Hg.
Qed.

(** C4.  A request to [POST /api/transactions/:id] that passes the parameter
    checks calls [validate] first and exactly once, a replay like any other
    request; unless [validate] calls back with status OK, its status and
    body (or its error) are what the caller gets and no other method is
    called.  On the example a suspended account is answered 403 with the
    message [Please activate your account], with [validate] the only call
    and the store untouched. *)
Theorem validate_once_before_engine (P : Platform) {St : Type}
    (self : Implementation St) (req : Request) (s : St) (t : Z)
    (w : World) (account : Account) (others : Datatypes.list Account) :
  truthy (body req !! "amount") = true →
  truthy (body req !! "timestamp") = true →
  new_Date P (body req !! "timestamp") = Some t →
  (∃ res rest s',
     post_transaction P self req s
     = (res, Validate (process_params req t) :: rest, s')
     ∧ Forall (λ c, is_validate c = false) rest
     ∧ ((∀ b, (validate self (process_params req t) s).1 ≠ Cb STATUS.OK b) →
        rest = [] ∧ res = responded (validate self (process_params req t) s).1
        ∧ s' = (validate self (process_params req t) s).2))
  ∧ (faults w = [] →
     accounts_by_requisite (sql_text P (body req !! "requisite")) (accounts w)
     = account :: others →
     acc_status account = suspended →
     post_transaction P (receiver.implementation P) req w
     = (send STATUS.FORBIDDEN (Some (BText "Please activate your account")),
        [Validate (process_params req t)], w)).
Proof.
  intros Ha Ht Hd. split; [by apply post_transaction_calls|].
  intros Hq Hsel Hst. rewrite (post_transaction_checked _ _ _ _ t) by done.
  simpl. rewrite validate_quiet by done.
  rewrite process_params_body by done. rewrite Hsel, Hst. reflexivity.
Qed.

(** C5.  In [POST /api/transactions/:id], past [validate], and in
    [DELETE /api/transactions/:id]: when the engine calls back with status
    OK the handler calls [get] once, with the id of the path, and answers
    with what [get] called back; with any other status it answers that
    status itself and [get] is not called. *)
Theorem two_tier_completion (P : Platform) {St : Type}
    (self : Implementation St) (req : Request) (s : St) :
  (∀ t b s1 status body s2,
     truthy (PaymentReceiver.body req !! "amount") = true →
     truthy (PaymentReceiver.body req !! "timestamp") = true →
     new_Date P (PaymentReceiver.body req !! "timestamp") = Some t →
     validate self (process_params req t) s = (Cb STATUS.OK b, s1) →
     process self (process_params req t) s1 = (Cb status body, s2) →
     (status = STATUS.OK →
      post_transaction P self req s
      = (responded (get self (Some (JStr (route_id req))) s2).1,
         [Validate (process_params req t); Process (process_params req t);
          Get (Some (JStr (route_id req)))],
         (get self (Some (JStr (route_id req))) s2).2))
     ∧ (status ≠ STATUS.OK →
        post_transaction P self req s
        = (respond status body,
           [Validate (process_params req t); Process (process_params req t)],
           s2)))
  ∧ (∀ status body s1,
       cancel self (Some (JStr (route_id req))) s = (Cb status body, s1) →
       (status = STATUS.OK →
        delete_transaction self req s
        = (sent (get self (Some (JStr (route_id req))) s1).1,
           [Cancel (Some (JStr (route_id req)));
            Get (Some (JStr (route_id req)))],
           (get self (Some (JStr (route_id req))) s1).2))
       ∧ (status ≠ STATUS.OK →
          delete_transaction self req s
          = (respond status body, [Cancel (Some (JStr (route_id req)))], s1))).
Proof.
  split.
  - intros t b s1 status body' s2 Ha Ht Hd Hv Hp.
    rewrite (post_transaction_completion P self req s t b s1 _ s2) by done.
    split; intros Hst.
    + rewrite decide_True by done. by destruct (get self _ s2).
    + by rewrite decide_False.
  - intros status body' s1 Hc.
    rewrite (delete_transaction_completion self req s _ s1) by done.
    split; intros Hst.
    + rewrite decide_True by done. by destruct (get self _ s1).
    + by rewrite decide_False.
Qed.

(** C6.  With the store answering, [list] calls back OK with the entities
    of exactly the ledger rows whose completion timestamp [t] is not before
    [begin] and, when [end] is given, not after it; a row without completion
    timestamp is never among them. *)
Theorem list_returns_completed_in_range (P : Platform) (w : World)
    (query : Object) (b : Z) (e : option Z) :
  faults w = [] →
  query !! "begin" = Some (JDate b) →
  end_given query e →
  ∃ l,
    receiver.list P query w = (Cb STATUS.OK (Some (BList l)), w)
    ∧ l = map Transaction (transactions_completed b e (transactions w))
    ∧ (∀ r, r ∈ transactions_completed b e (transactions w) ↔
            r ∈ transactions w
            ∧ ∃ t, completed r = Some t ∧ b ≤ t ∧ ∀ e', e = Some e' → t ≤ e')
    ∧ (∀ r, r ∈ transactions w → completed r = None →
            r ∉ transactions_completed b e (transactions w)).
Proof.
  intros Hq Hb He. eexists. split_and!.
  - by apply list_quiet.
  - done.
  - intros r. apply elem_of_transactions_completed.
  - intros r _ Hn (_ & t & Ht & _)%elem_of_transactions_completed. congruence.
Qed.

(** C7.  In [process]: an error called back leaves both tables as they
    were, and the POST handler turns it into a 500 carrying its
    [toString()], without calling [get]; a round trip that fails at any
    stage [process] reaches (connect, [BEGIN], [SELECT], [INSERT], [UPDATE],
    [COMMIT]) is called back as that error, unless it is the [INSERT]
    failing with the duplicate external id; so are an [INSERT] the schema
    refuses for another reason and an [UPDATE] it refuses. *)
Theorem storage_failure_aborts_and_surfaces (P : Platform) (params : Object)
    (w : World) :
  (∀ err w',
     receiver.process P params w = (CbErr err, w') →
     same_tables w w'
     ∧ after_validate (receiver.implementation P) params w
       = (send STATUS.INTERNAL_SERVER_ERROR (Some (BText (toString err))),
          [Process params], w'))
  ∧ (∀ k err rest,
       faults w = failing_at k err rest →
       process_reaches P params w k →
       (k = AtInsert → isDuplicateIdConstraint err = false) →
       ∃ w', receiver.process P params w = (CbErr err, w'))
  ∧ (∀ account others err,
       faults w = [] →
       accounts_by_requisite (sql_text P (params !! "requisite")) (accounts w)
       = account :: others →
       (INSERT_transaction (sql_text P (params !! "id")) (acc_id account)
          (sql_text P (params !! "requisite"))
          (sql_numeric P (params !! "amount"))
          (mkTxn (clock w) (accounts w) (transactions w) false) w).1 = inl err →
       isDuplicateIdConstraint err = false →
       ∃ w', receiver.process P params w = (CbErr err, w'))
  ∧ (∀ account others row c err,
       faults w = [] →
       accounts_by_requisite (sql_text P (params !! "requisite")) (accounts w)
       = account :: others →
       sql_numeric P (params !! "amount") = SqlVal c →
       new_transaction (transactions_id_seq w + 1) (clock w)
         (sql_text P (params !! "id")) (acc_id account)
         (sql_text P (params !! "requisite")) (SqlVal c)
         (accounts w) (transactions w) = inr row →
       update_accounts Z.add c (acc_id account) (accounts w) = inl err →
       ∃ w', receiver.process P params w = (CbErr err, w')).
Proof.
  split_and!.
  - intros err w' Hp. split; [by eapply process_error_tables|].
    unfold after_validate. simpl. by rewrite Hp.
  - apply process_failing.
  - apply process_insert_refused.
  - apply process_update_refused.
Qed.

(** C8.  From a store in which no balance is negative, whatever requests
    the example server answers, with whatever arguments and whichever round
    trips failing, no balance is negative in the store it leaves. *)
Theorem balance_never_negative (P : Platform) (hs : Datatypes.list Http)
    (w : World) :
  nonnegative w → nonnegative (served P hs w).
Proof.
  revert w. induction hs as [|h hs IH]; intros w Hw; [done|].
  simpl. apply IH. by apply nonnegative_serve.
Qed.

(** C1.  On a consistent store that answers every round trip, take a
    notification for an active account: external id of at most 24
    characters and not in the ledger, amount [0 < c < 10 ^ 8] hundredths,
    a timestamp that parses, and a balance that stays under the column's
    [10 ^ 12].  Delivered [n + 1] times in a row it is answered 200 with
    the same entity each time; afterwards the ledger holds exactly one
    entry with that external id (the old ledger plus that row), and the
    balance of the account is [c] higher than before, the other balances
    as before. *)
Theorem process_is_idempotent (P : Platform) (req : Request) (w : World)
    (account : Account) (r : string) (c t : Z) (n : nat) :
  consistent w → faults w = [] →
  body req !! "requisite" = Some (JStr r) →
  body req !! "amount" = Some (JNum c) →
  truthy (body req !! "timestamp") = true →
  new_Date P (body req !! "timestamp") = Some t →
  (String.length (route_id req) ≤ 24)%nat → 0 < c < 10 ^ 8 →
  account ∈ accounts w → acc_requisite account = r →
  acc_status account = active → balance account + c < 10 ^ 12 →
  entries (route_id req) w = [] →
  ∃ row w',
    repeat_call (S n) (answer (post_transaction P (receiver.implementation P) req)) w
    = (replicate (S n) (send STATUS.OK (Some (BEntity (Transaction row)))), w')
    ∧ entries (route_id req) w' = [row]
    ∧ transactions w' = transactions w ++ [row]
    ∧ amount row = c ∧ account_id row = acc_id account ∧ status row = success
    ∧ balance_of (acc_id account) w' = Some (balance account + c)
    ∧ (∀ a, a ≠ acc_id account → balance_of a w' = balance_of a w).
Proof.
  intros Hw Hq Hr Hc Ht Hd He Hc' Hacc Hreq Hact Hbal Hfresh.
  destruct Hw as [Hpk Hrq Hex Hac Htc Hfk Hcov].
  assert (accounts_by_requisite (Some r) (accounts w) = [account]) as Hsel.
  { unfold accounts_by_requisite. subst r.
    by apply (filter_key_unique acc_requisite). }
  destruct (Hac account Hacc) as [Hlr Hb].
  set (row := stored req w (acc_id account) r c).
  set (w1 := mkWorld (moved Z.add c (acc_id account) (accounts w))
                     (transactions w ++ [row])
                     (transactions_id_seq w + 1) (clock w + 1) []).
  assert (answer (post_transaction P (receiver.implementation P) req) w
          = (send STATUS.OK (Some (BEntity (Transaction row))), w1)) as H1.
  { eapply post_fresh; try done; [by subst r|].
    intros x Hx Hid.
    rewrite (key_unique acc_id _ account x) by done. lia. }
  assert (filter (λ x, external_id x = route_id req) (transactions w1) = [row])
    as Hrow.
  { simpl. rewrite filter_app. unfold entries in Hfresh. rewrite Hfresh.
    simpl. rewrite filter_cons. simpl. by rewrite decide_True. }
  destruct (post_replays P req t r c
              (mkAccount (acc_id account) (acc_requisite account)
                         (full_name account) (acc_status account)
                         (balance account + c)) [] row [] n w1)
    as (w' & Hn & [Ha' Ht'] & Hq'); try done.
  { simpl. unfold accounts_by_requisite in *.
    rewrite filter_moved_requisite, Hsel. unfold moved. simpl.
    by rewrite decide_True. }
  { by subst r. }
  exists row, w'. split_and!; try done.
  - simpl. by rewrite H1, Hn.
  - unfold entries. by rewrite Ht'.
  - rewrite (balance_of_moved Z.add c (acc_id account) _ w) by done.
    rewrite balance_of_elem by done. simpl. by rewrite decide_True.
  - intros a Ha.
    rewrite (balance_of_moved Z.add c (acc_id account) _ w) by done.
    destruct (balance_of a w); simpl; [|done]. by rewrite decide_False.
Qed.

(** C2.  On a consistent store that answers every round trip, take a
    ledger entry that is not cancelled.  [DELETE] of its external id,
    [n + 1] times in a row, is answered 200 with the cancelled entity every
    time; afterwards the entry is marked cancelled (the rest of the ledger
    is as before), the balance of its account is lower by its amount, once,
    and the other balances are as before.  For an external id with no ledger
    entry, [DELETE] is answered 404 and leaves both tables as they were. *)
Theorem cancel_contract (P : Platform) (req : Request) (w : World) :
  consistent w → faults w = [] →
  (∀ row n,
     row ∈ transactions w → external_id row = route_id req →
     status row ≠ cancelled →
     ∃ w',
       repeat_call (S n)
         (answer (delete_transaction (receiver.implementation P) req)) w
       = (replicate (S n)
            (send STATUS.OK (Some (BEntity (Transaction (set_cancelled row))))),
          w')
       ∧ entries (route_id req) w' = [set_cancelled row]
       ∧ transactions w' = cancelled_in (route_id req) (transactions w)
       ∧ is_Some (balance_of (account_id row) w)
       ∧ balance_of (account_id row) w'
         = (λ b, b - amount row) <$> balance_of (account_id row) w
       ∧ (∀ a, a ≠ account_id row → balance_of a w' = balance_of a w))
  ∧ (entries (route_id req) w = [] →
     ∃ w',
       delete_transaction (receiver.implementation P) req w
       = (sendStatus STATUS.NOT_FOUND, [Cancel (Some (JStr (route_id req)))], w')
       ∧ same_tables w w').
Proof.
  intros Hw Hq. split.
  - intros row n Hrow He Hst.
    pose proof Hw as [Hpk Hrq Hex Hac Htc Hfk Hcov].
    assert (filter (λ x, external_id x = route_id req) (transactions w) = [row])
      as Hsel by (rewrite <- He; by apply (filter_key_unique external_id)).
    destruct (Hfk row Hrow) as (owner & Hown & Hid).
    destruct (Htc row Hrow) as [_ Hamt].
    pose proof (covered_by_owner w row owner Hw Hrow Hst Hown Hid) as Hcover.
    set (w1 := mkWorld (moved Z.sub (amount row) (account_id row) (accounts w))
                       (cancelled_in (route_id req) (transactions w))
                       (transactions_id_seq w) (clock w + 1) []).
    assert (answer (delete_transaction (receiver.implementation P) req) w
            = (send STATUS.OK (Some (BEntity (Transaction (set_cancelled row)))),
               w1)) as H1.
    { eapply delete_live; try done.
      intros x Hx Hxid.
      by rewrite (key_unique acc_id _ owner x) by (done || congruence). }
    assert (filter (λ x, external_id x = route_id req) (transactions w1)
            = [set_cancelled row]) as Hrow1.
    { simpl. rewrite filter_cancelled_in, Hsel. unfold cancelled_in. simpl.
      rewrite He. by rewrite decide_True. }
    destruct (delete_agains P req (set_cancelled row) [] n w1)
      as (w' & Hn & [Ha' Ht'] & Hq'); try done.
    exists w'. split_and!.
    + simpl. by rewrite H1, Hn.
    + unfold entries. by rewrite Ht'.
    + by rewrite Ht'.
    + rewrite <- Hid, balance_of_elem by done. by eexists.
    + rewrite (balance_of_moved Z.sub (amount row) (account_id row) _ w) by done.
      destruct (balance_of (account_id row) w); simpl; [|done].
      by rewrite decide_True.
    + intros a Ha.
      rewrite (balance_of_moved Z.sub (amount row) (account_id row) _ w) by done.
      destruct (balance_of a w); simpl; [|done]. by rewrite decide_False.
  - intros Hnone. eexists. split; [by apply delete_absent|done].
Qed.

(** C3, as the code has it.  From a store whose entries are all terminal
    with their completion timestamp (the seeded one has none), every store the
    server reaches is such a store.  On any store where the completion
    timestamp is set exactly on the terminal entries, the entity [get] calls
    back carries the status of a ledger row with the id asked for and a
    [timestamp] exactly when that status is terminal: the row's completion
    timestamp as the driver hands it over, cut to whole milliseconds; with
    the store answering, [get] does call back OK for the id of a ledger row.
    On a store the server has reached, consistent and answering, cancelling an
    entry that is not cancelled calls back OK, leaves the entry's completion
    timestamp as it is, and [get] then returns the entity with status
    [cancelled] and that same completion time as [timestamp]. *)
Theorem timestamp_is_completion_time (P : Platform) (hs : Datatypes.list Http)
    (w0 : World) :
  consistent w0 → settled w0 →
  settled (served P hs w0)
  ∧ (∀ w id body w',
       timely w →
       receiver.get P id w = (Cb STATUS.OK body, w') →
       ∃ row,
         row ∈ transactions w ∧ sql_text P id = Some (external_id row)
         ∧ body = Some (BEntity (Transaction row))
         ∧ Transaction.status (Transaction row) = status row
         ∧ (is_Some (Transaction.timestamp (Transaction row))
            ↔ terminal (status row))
         ∧ Transaction.timestamp (Transaction row)
           = Date_of_timestamptz <$> completed row)
  ∧ (∀ w id row,
       faults w = [] → row ∈ transactions w →
       sql_text P id = Some (external_id row) →
       ∃ body, receiver.get P id w = (Cb STATUS.OK body, w))
  ∧ (∀ id row,
       faults (served P hs w0) = [] →
       row ∈ transactions (served P hs w0) →
       sql_text P id = Some (external_id row) → status row ≠ cancelled →
       ∃ w1 entity row1 t,
         receiver.cancel P id (served P hs w0) = (Cb STATUS.OK None, w1)
         ∧ receiver.get P id w1 = (Cb STATUS.OK (Some (BEntity entity)), w1)
         ∧ completed row = Some t
         ∧ entries (external_id row) w1 = [row1]
         ∧ status row1 = cancelled ∧ completed row1 = Some t
         ∧ Transaction.status entity = cancelled
         ∧ Transaction.timestamp entity = Some (Date_of_timestamptz t)).
Proof.
  intros Hw0 Hs0.
  pose proof (settled_served P hs w0 Hs0) as Hs.
  pose proof (consistent_served P hs w0 Hw0) as Hw.
  split_and!; [done| | |].
  - intros w id body' w' Ht Hget.
    apply get_ok_row in Hget as (row & Hrow & Hid & ->).
    exists row. split_and!; try done.
    rewrite <- (Ht row Hrow). simpl. by rewrite fmap_is_Some.
  - intros w id row Hq Hrow Hid. rewrite get_quiet, Hid by done.
    unfold transactions_by_external_id.
    destruct (filter _ (transactions w)) as [|row' rest] eqn:Hf; [|by eexists].
    assert (row ∈ filter (λ r, external_id r = external_id row) (transactions w))
      as Hin by (by apply list_elem_of_filter).
    rewrite Hf in Hin. by apply elem_of_nil in Hin.
  - set (w := served P hs w0) in *. intros id row Hq Hrow Hid Hst.
    pose proof Hw as [Hpk Hrq Hex Hac Htc Hfk Hcov].
    assert (filter (λ x, external_id x = external_id row) (transactions w)
            = [row]) as Hsel by (by apply (filter_key_unique external_id)).
    destruct (Hfk row Hrow) as (owner & Hown & Hoid).
    destruct (Htc row Hrow) as [_ Hamt].
    pose proof (covered_by_owner w row owner Hw Hrow Hst Hown Hoid) as Hcover.
    destruct (Hs row Hrow) as [[t Ht] _].
    eexists _, _, (set_cancelled row), t. split_and!.
    + eapply cancel_live; try done. intros x Hx Hxid.
      by rewrite (key_unique acc_id _ owner x) by (done || congruence).
    + rewrite get_quiet by done. simpl. rewrite Hid.
      unfold transactions_by_external_id.
      rewrite filter_cancelled_in, Hsel. unfold cancelled_in. simpl.
      by rewrite decide_True.
    + done.
    + unfold entries. simpl. rewrite filter_cancelled_in, Hsel.
      unfold cancelled_in. simpl. by rewrite decide_True.
    + done.
    + done.
    + done.
    + simpl. by rewrite Ht.
Qed.

End Claims.

(** * The claims on the concrete deployment *)

Lemma seeded_consistent : consistent Scenario.seeded.
Proof.
  split; simpl.
  - by refine (bool_decide_unpack _ _).
  - by refine (bool_decide_unpack _ _).
  - apply NoDup_nil_2.
  - apply Forall_forall. repeat constructor; simpl; lia.
  - intros r Hr. by apply elem_of_nil in Hr.
  - intros r Hr. by apply elem_of_nil in Hr.
  - apply Forall_forall. repeat constructor; simpl; lia.
Defined.

Lemma later_consistent : consistent Cases.later.
Proof.
  split; simpl.
  - by refine (bool_decide_unpack _ _).
  - by refine (bool_decide_unpack _ _).
  - apply NoDup_nil_2.
  - apply Forall_forall. repeat constructor; simpl; lia.
  - intros r Hr. by apply elem_of_nil in Hr.
  - intros r Hr. by apply elem_of_nil in Hr.
  - apply Forall_forall. repeat constructor; simpl; lia.
Defined.

Lemma applied_consistent : consistent Scenario.applied.
Proof.
  split; simpl.
  - by refine (bool_decide_unpack _ _).
  - by refine (bool_decide_unpack _ _).
  - by refine (bool_decide_unpack _ _).
  - apply Forall_forall. repeat constructor; simpl; lia.
  - apply Forall_forall. repeat constructor; simpl; lia.
  - intros r ->%list_elem_of_singleton. eexists. split; [left|done].
  - apply Forall_forall. repeat constructor; simpl; lia.
Defined.

Lemma process_is_idempotent_witness :
  ∃ row w',
    repeat_call 3
      (answer (PaymentReceiver.post_transaction Scenario.platform
                 (receiver.implementation Scenario.platform)
                 Scenario.notification))
      Scenario.seeded
    = (replicate 3 (PaymentReceiver.send STATUS.OK
                      (Some (BEntity (Transaction row)))), w')
    ∧ entries "5648dc5077ba42ee6b13ff6f" w' = [row]
    ∧ transactions w' = [row]
    ∧ amount row = 4595 ∧ account_id row = 1 ∧ status row = success
    ∧ balance_of 1 w' = Some 4595
    ∧ (∀ a, a ≠ 1 → balance_of a w' = balance_of a Scenario.seeded).
Proof.
  apply (process_is_idempotent Scenario.platform Scenario.notification
           Scenario.seeded
           (mkAccount 1 "996700650835" "Dan Kerimdzhanov" active 0)
           "996700650835" 4595 0 2).
  - apply seeded_consistent.
  - reflexivity.
  - reflexivity.
  - reflexivity.
  - reflexivity.
  - reflexivity.
  - simpl. lia.
  - lia.
  - left.
  - reflexivity.
  - reflexivity.
  - simpl. lia.
  - reflexivity.
Defined.

Lemma cancel_contract_witness :
  ∃ w',
    repeat_call 2
      (answer (PaymentReceiver.delete_transaction
                 (receiver.implementation Scenario.platform)
                 Scenario.notification))
      Scenario.applied
    = (replicate 2
         (PaymentReceiver.send STATUS.OK
            (Some (BEntity (Transaction (set_cancelled Scenario.applied_row))))),
       w')
    ∧ entries "5648dc5077ba42ee6b13ff6f" w' = [set_cancelled Scenario.applied_row]
    ∧ transactions w' = [set_cancelled Scenario.applied_row]
    ∧ is_Some (balance_of 1 Scenario.applied)
    ∧ balance_of 1 w' = (λ b, b - 4595) <$> balance_of 1 Scenario.applied
    ∧ (∀ a, a ≠ 1 → balance_of a w' = balance_of a Scenario.applied).
Proof.
  apply (proj1 (cancel_contract Scenario.platform Scenario.notification
                  Scenario.applied applied_consistent eq_refl)
               Scenario.applied_row 1%nat).
  - left.
  - reflexivity.
  - discriminate.
Defined.

Lemma timestamp_is_completion_time_witness :
  ∃ w1 entity,
    receiver.cancel Scenario.platform (Some (JStr "5648dc5077ba42ee6b13ff6f"))
      (served Scenario.platform [POST_transaction Scenario.notification]
              Cases.later)
    = (Cb STATUS.OK None, w1)
    ∧ receiver.get Scenario.platform (Some (JStr "5648dc5077ba42ee6b13ff6f")) w1
      = (Cb STATUS.OK (Some (BEntity entity)), w1)
    ∧ Transaction.status entity = cancelled
    ∧ Transaction.timestamp entity = Some 1000000.
Proof.
  destruct (proj2 (proj2 (proj2 (timestamp_is_completion_time Scenario.platform
                            [POST_transaction Scenario.notification]
                            Cases.later later_consistent
                            ltac:(intros r Hr; by apply elem_of_nil in Hr))))
              (Some (JStr "5648dc5077ba42ee6b13ff6f"))
              (mkRow 1 "5648dc5077ba42ee6b13ff6f" 1 "996700650835" 4595
                     success None 1000993 (Some 1000993) None)
              eq_refl ltac:(vm_compute; left) eq_refl ltac:(discriminate))
    as (w1 & entity & row1 & t & Hc & Hg & Ht & _ & _ & _ & Hs & Hts).
  exists w1, entity. injection Ht as <-. by split_and!.
Defined.

(** C3, as stated, fails.  The entry completed at 1000 is cancelled at 2000:
    the cancelled row has no cancellation timestamp, and the entity [get]
    returns carries the completion time 1000 as its timestamp, not the time
    of the cancellation.  The entry [process] completes at 1000993 is
    answered with the timestamp 1000000: the moment of completion is
    reported cut to its millisecond. *)
Lemma cancelled_entity_timestamp_counterexample :
  (∃ w1 entity row,
     clock Scenario.applied = 2000
     ∧ receiver.cancel Scenario.platform (Some (JStr "5648dc5077ba42ee6b13ff6f"))
                       Scenario.applied
       = (Cb STATUS.OK None, w1)
     ∧ receiver.get Scenario.platform (Some (JStr "5648dc5077ba42ee6b13ff6f")) w1
       = (Cb STATUS.OK (Some (BEntity entity)), w1)
     ∧ entries "5648dc5077ba42ee6b13ff6f" w1 = [row]
     ∧ status row = cancelled
     ∧ row_cancelled row = None
     ∧ Transaction.status entity = cancelled
     ∧ Transaction.timestamp entity = Some 1000
     ∧ Transaction.timestamp entity ≠ Some (clock Scenario.applied)
     ∧ Transaction.timestamp entity
       ≠ Some (Date_of_timestamptz (clock Scenario.applied)))
  ∧ (∃ w1 entity row,
       answer (PaymentReceiver.post_transaction Scenario.platform
                 (receiver.implementation Scenario.platform)
                 Scenario.notification) Cases.later
       = (PaymentReceiver.send STATUS.OK (Some (BEntity entity)), w1)
       ∧ entries "5648dc5077ba42ee6b13ff6f" w1 = [row]
       ∧ status row = success
       ∧ completed row = Some 1000993
       ∧ Transaction.status entity = success
       ∧ Transaction.timestamp entity = Some 1000000
       ∧ Transaction.timestamp entity ≠ completed row).
Proof.
  split.
  - eexists _, _, _. split_and!; try (vm_compute; reflexivity);
      vm_compute; discriminate.
  - eexists _, _, _. split_and!; try (vm_compute; reflexivity).
    vm_compute. discriminate.
Qed.

Lemma validate_once_before_engine_witness :
  (∃ res rest s',
     PaymentReceiver.post_transaction Scenario.platform
       (receiver.implementation Scenario.platform) Scenario.to_suspended
       Scenario.seeded
     = (res, PaymentReceiver.Validate (process_params Scenario.to_suspended 0)
             :: rest, s')
     ∧ Forall (λ c, is_validate c = false) rest
     ∧ ((∀ b, (receiver.validate Scenario.platform
                 (process_params Scenario.to_suspended 0) Scenario.seeded).1
              ≠ Cb STATUS.OK b) →
        rest = []
        ∧ res = responded (receiver.validate Scenario.platform
                  (process_params Scenario.to_suspended 0) Scenario.seeded).1
        ∧ s' = (receiver.validate Scenario.platform
                  (process_params Scenario.to_suspended 0) Scenario.seeded).2))
  ∧ PaymentReceiver.post_transaction Scenario.platform
      (receiver.implementation Scenario.platform) Scenario.to_suspended
      Scenario.seeded
    = (PaymentReceiver.send STATUS.FORBIDDEN
         (Some (BText "Please activate your account")),
       [PaymentReceiver.Validate (process_params Scenario.to_suspended 0)],
       Scenario.seeded).
Proof.
  destruct (validate_once_before_engine Scenario.platform
              (receiver.implementation Scenario.platform) Scenario.to_suspended
              Scenario.seeded 0 Scenario.seeded
              (mkAccount 2 "996555362358" "Andy Romashin" suspended 0) []
              eq_refl eq_refl eq_refl) as [Hcalls Hsuspended].
  split; [exact Hcalls|].
  apply Hsuspended; reflexivity.
Defined.

Lemma two_tier_completion_witness :
  PaymentReceiver.post_transaction Scenario.platform
    (receiver.implementation Scenario.platform) Scenario.notification
    Scenario.seeded
  = (PaymentReceiver.send STATUS.OK
       (Some (BEntity (Transaction Scenario.applied_row))),
     [PaymentReceiver.Validate (process_params Scenario.notification 0);
      PaymentReceiver.Process (process_params Scenario.notification 0);
      PaymentReceiver.Get (Some (JStr "5648dc5077ba42ee6b13ff6f"))],
     mkWorld (accounts Scenario.applied) (transactions Scenario.applied) 1 1001 [])
  ∧ PaymentReceiver.delete_transaction
      (receiver.implementation Scenario.platform) Scenario.zero_amount
      Scenario.seeded
    = (PaymentReceiver.sendStatus STATUS.NOT_FOUND,
       [PaymentReceiver.Cancel (Some (JStr "564a4ff477ba42ee6b1407c9"))],
       mkWorld (accounts Scenario.seeded) [] 0 1001 []).
Proof.
  destruct (two_tier_completion Scenario.platform
              (receiver.implementation Scenario.platform)
              Scenario.notification Scenario.seeded) as [Hpost _].
  destruct (two_tier_completion Scenario.platform
              (receiver.implementation Scenario.platform)
              Scenario.zero_amount Scenario.seeded) as [_ Hdelete].
  split.
  - apply (proj1 (Hpost 0 (Some (BText "Dan Kerimdzhanov")) Scenario.seeded
                    STATUS.OK None
                    (mkWorld (accounts Scenario.applied)
                             (transactions Scenario.applied) 1 1001 [])
                    eq_refl eq_refl eq_refl eq_refl eq_refl) eq_refl).
  - apply (proj2 (Hdelete STATUS.NOT_FOUND None
                    (mkWorld (accounts Scenario.seeded) [] 0 1001 []) eq_refl)).
    discriminate.
Defined.

Lemma list_returns_completed_in_range_witness :
  ∃ l,
    receiver.list Scenario.platform
      (<[ "begin" := JDate 500 ]> (<[ "end" := JDate 1500 ]> ∅)) Scenario.applied
    = (Cb STATUS.OK (Some (BList l)), Scenario.applied)
    ∧ l = map Transaction
            (transactions_completed 500 (Some 1500) (transactions Scenario.applied))
    ∧ (∀ r, r ∈ transactions_completed 500 (Some 1500)
                  (transactions Scenario.applied) ↔
            r ∈ transactions Scenario.applied
            ∧ ∃ t, completed r = Some t ∧ 500 ≤ t ∧ ∀ e', Some 1500 = Some e' → t ≤ e')
    ∧ (∀ r, r ∈ transactions Scenario.applied → completed r = None →
            r ∉ transactions_completed 500 (Some 1500)
                  (transactions Scenario.applied)).
Proof.
  apply (list_returns_completed_in_range Scenario.platform Scenario.applied
           (<[ "begin" := JDate 500 ]> (<[ "end" := JDate 1500 ]> ∅))
           500 (Some 1500)); reflexivity.
Defined.

Lemma storage_failure_aborts_and_surfaces_witness :
  faults Scenario.failing
  = [None; None; None; None; Some Scenario.connection_lost]
  ∧ ∃ w',
      receiver.process Scenario.platform
        (process_params Scenario.notification 0) Scenario.failing
      = (CbErr Scenario.connection_lost, w').
Proof.
  split; [reflexivity|].
  apply (proj1 (proj2 (storage_failure_aborts_and_surfaces Scenario.platform
                         (process_params Scenario.notification 0)
                         Scenario.failing))
               AtUpdate Scenario.connection_lost []).
  - reflexivity.
  - eexists _, _, _. split; vm_compute; reflexivity.
  - discriminate.
Defined.

Lemma balance_never_negative_witness :
  nonnegative Scenario.seeded
  ∧ nonnegative
      (served Scenario.platform
         [POST_transaction Scenario.notification;
          DELETE_transaction Scenario.notification;
          DELETE_transaction Scenario.notification]
         Scenario.seeded).
Proof.
  assert (nonnegative Scenario.seeded) as H
    by (repeat constructor; simpl; lia).
  split; [exact H|].
  apply (balance_never_negative Scenario.platform _ Scenario.seeded H).
Defined.

Lemma falsy_amount_and_timestamp_rejected_witness :
  truthy (PaymentReceiver.body Scenario.zero_amount !! "amount") = false
  ∧ PaymentReceiver.post_transaction Scenario.platform
      (receiver.implementation Scenario.platform) Scenario.zero_amount
      Scenario.seeded
    = (PaymentReceiver.send STATUS.BAD_REQUEST
         (Some (BText "missing parameter `amount`")), [], Scenario.seeded).
Proof.
  split; [reflexivity|].
  apply (proj1 (falsy_amount_and_timestamp_rejected Scenario.platform
                  (receiver.implementation Scenario.platform)
                  Scenario.zero_amount Scenario.seeded Scenario.seeded)).
  reflexivity.
Defined.

(** ** The scenarios of the integration test *)

(** Applied twice and cancelled twice, the notification credits 45.95 once
    and takes it back once. *)
Example applied_twice_cancelled_twice :
  map (λ hs, balance_of 1 (served Scenario.platform hs Scenario.seeded))
      [[POST_transaction Scenario.notification];
       [POST_transaction Scenario.notification;
        POST_transaction Scenario.notification];
       [POST_transaction Scenario.notification;
        POST_transaction Scenario.notification;
        DELETE_transaction Scenario.notification];
       [POST_transaction Scenario.notification;
        POST_transaction Scenario.notification;
        DELETE_transaction Scenario.notification;
        DELETE_transaction Scenario.notification]]
  = [Some 4595; Some 4595; Some 0; Some 0].
Proof. vm_compute. reflexivity. Qed.

(** Three notifications of 246.91, 370.37 and 617.28 leave 1234.56 and three
    entries to list. *)
Example three_credits :
  let w := served Scenario.platform
             [POST_transaction (Scenario.credit "5648dc5077ba42ee6b13ff6f" 24691);
              POST_transaction (Scenario.credit "564a50cb77ba42ee6b1407ca" 37037);
              POST_transaction (Scenario.credit "564a4ff477ba42ee6b1407c9" 61728)]
             Scenario.seeded in
  balance_of 1 w = Some 123456
  ∧ ∃ l, (serve Scenario.platform (GET_transactions Scenario.listing) w).1.1
         = PaymentReceiver.send STATUS.OK (Some (BList l))
         ∧ length l = 3%nat.
Proof.
  split; [vm_compute; reflexivity|].
  eexists. split; vm_compute; reflexivity.
Qed.

(** * Further properties *)

(** ** The address check and the parameter checks, for every implementation *)

Section Routes.
Import PaymentReceiver.
Context (P : Platform) {St : Type} (self : Implementation St).

(** X1.  The address check reads the [x-forwarded-for] header whenever it is
    a non-empty text, so what it decides, and everything after it, is the
    same whatever the address of the socket; a check that calls back
    FORBIDDEN is answered 403 with the address between double quotes and the
    route is not run, and any other status lets the request through to the
    route, as the check of the prototype does for every request. *)
Theorem address_check_reads_forwarded_header
    (check : option string → St → Callback * St) (header : string)
    (socket socket' : option string)
    (next : St → Response * Datatypes.list Call * St) (s : St) :
  header ≠ "" →
  Server.use check (Server.mkPeer (Some header) socket) next s
  = Server.use check (Server.mkPeer (Some header) socket') next s
  ∧ (∀ status b s1,
       check (Some header) s = (Cb status b, s1) →
       Server.use check (Server.mkPeer (Some header) socket) next s
       = if decide (status = STATUS.FORBIDDEN)
         then (send STATUS.FORBIDDEN
                 (Some (BText ("request denied for " +:+ Server.dquote +:+ header
                               +:+ Server.dquote +:+ ", invalid IP"))), [], s1)
         else next s1)
  ∧ Server.use Server.checkIp (Server.mkPeer (Some header) socket) next s = next s.
Proof.
  intros Hh.
  assert (∀ so, Server.remoteAddress (Server.mkPeer (Some header) so) = Some header)
    as Hra.
  { intros so. unfold Server.remoteAddress, Server.or_else. simpl.
    destruct (String.eqb_spec header ""); [done|done]. }
  split_and!.
  - unfold Server.use. by rewrite !Hra.
  - intros status b s1 Hc. unfold Server.use. rewrite Hra, Hc. done.
  - done.
Qed.

(** X2.  An implementation that keeps the [validate] of the prototype never
    has its [process] or [get] called by [POST /api/transactions/:id]: the
    request is answered 400 or 422 by the parameter checks, or 501 once
    [validate] has been called. *)
Theorem prototype_validate_blocks_process (req : Request) (s : St) :
  (∀ params s, validate self params s = validate (prototype St) params s) →
  ∃ res calls,
    post_transaction P self req s = (res, calls, s)
    ∧ Forall (λ c, is_validate c = true) calls
    ∧ (res = sendStatus STATUS.NOT_IMPLEMENTED
       ∨ ∃ m, res = send STATUS.BAD_REQUEST (Some (BText m))
              ∨ res = send STATUS.UNPROCESSABLE_ENTITY (Some (BText m))).
Proof.
  intros Hv. unfold post_transaction.
  destruct (negb (truthy (_ !! "amount"))); [by eauto 10|].
  destruct (negb (truthy (_ !! "timestamp"))); [by eauto 10|].
  destruct (new_Date _ _) as [t|]; [|by eauto 10].
  simpl. rewrite Hv. simpl.
  eexists _, _. split_and!; [done|by repeat constructor|by left].
Qed.

(** X3.  [POST /api/transactions/:id] calls no method exactly when a
    parameter check fails: the amount is falsy, the timestamp is falsy, or
    the timestamp does not parse to a date (answered 422); the store is then
    as it was. *)
Theorem post_calls_nothing_iff_check_fails (req : Request) (s : St) :
  ((post_transaction P self req s).1.2 = [] ↔
   truthy (body req !! "amount") = false
   ∨ truthy (body req !! "timestamp") = false
   ∨ new_Date P (body req !! "timestamp") = None)
  ∧ ((post_transaction P self req s).1.2 = [] →
     (post_transaction P self req s).2 = s)
  ∧ (truthy (body req !! "amount") = true →
     truthy (body req !! "timestamp") = true →
     new_Date P (body req !! "timestamp") = None →
     post_transaction P self req s
     = (send STATUS.UNPROCESSABLE_ENTITY
          (Some (BText "parameter `timestamp` is not a valid ISO datetime")),
        [], s)).
Proof.
  unfold post_transaction. rewrite !params_body by done.
  destruct (truthy (body req !! "amount")) eqn:Ha; simpl;
    [|split_and!; [split; [by left|done]|done|done]].
  destruct (truthy (body req !! "timestamp")) eqn:Ht; simpl;
    [|split_and!; [split; [by right; left|done]|done|done]].
  destruct (new_Date P (body req !! "timestamp")) as [t|] eqn:Hd;
    [|split_and!; [split; [by right; right|done]|done|done]].
  assert (∀ (x : Response * Datatypes.list Call * St) c,
            (let '(res, calls, s0) := x in (res, c :: calls, s0)).1.2 ≠ []) as Hne.
  { by intros [[] ?] ?. }
  split_and!; [|intros Hc; exfalso; revert Hc|done].
  - split; [|by intros [?|[?|?]]].
    intros Hc. exfalso. revert Hc.
    destruct (validate self _ s) as [[err|status b|] s1]; simpl; try done.
    case_decide; [done|]. apply Hne.
  - destruct (validate self _ s) as [[err|status b|] s1]; simpl; try done.
    case_decide; [done|]. apply Hne.
Qed.

End Routes.

Section ListRoute.
Import PaymentReceiver.
Context (P : Platform) {St : Type} (self : Implementation St).

Lemma merge2_empty (a : Object) : merge2 ∅ a = a.
Proof. unfold merge2. apply (right_id_L ∅ (∪)). Qed.

Lemma list_route_passes (req : Request) (s : St) (b : Z) :
  truthy (query req !! "begin") = true →
  new_Date P (query req !! "begin") = Some b →
  (truthy (query req !! "end") = false →
   get_transactions P self req s
   = (sent (list self (<[ "begin" := JDate b ]> (query req)) s).1,
      [List (<[ "begin" := JDate b ]> (query req))],
      (list self (<[ "begin" := JDate b ]> (query req)) s).2))
  ∧ (∀ e, truthy (query req !! "end") = true →
          new_Date P (query req !! "end") = Some e →
          get_transactions P self req s
          = (sent (list self (<[ "end" := JDate e ]>
                                (<[ "begin" := JDate b ]> (query req))) s).1,
             [List (<[ "end" := JDate e ]>
                      (<[ "begin" := JDate b ]> (query req)))],
             (list self (<[ "end" := JDate e ]>
                           (<[ "begin" := JDate b ]> (query req))) s).2)).
Proof.
  unfold get_transactions. rewrite merge2_empty. intros -> ->. simpl.
  rewrite lookup_insert_ne by done. split.
  - intros ->. by destruct (list self _ s) as [[] ?].
  - intros e -> ->. by destruct (list self _ s) as [[] ?].
Qed.

(** X4.  [GET /api/transactions] answers 400 when [begin] is falsy, 422 when
    [begin] does not parse to a date, and 422 when a truthy [end] does not;
    in these cases [list] is not called and the store is as it was.
    Otherwise it calls [list] once, with [begin] replaced by its date and
    [end] replaced by its date when truthy and left as it is when falsy, and
    answers with what [list] called back. *)
Theorem list_route_checks (req : Request) (s : St) :
  (truthy (query req !! "begin") = false →
   get_transactions P self req s
   = (send STATUS.BAD_REQUEST (Some (BText "missing query parameter `begin`")),
      [], s))
  ∧ (truthy (query req !! "begin") = true →
     new_Date P (query req !! "begin") = None →
     get_transactions P self req s
     = (send STATUS.UNPROCESSABLE_ENTITY
          (Some (BText "query parameter `begin` is not a valid ISO datetime")),
        [], s))
  ∧ (∀ b, truthy (query req !! "begin") = true →
          new_Date P (query req !! "begin") = Some b →
          (truthy (query req !! "end") = true →
           new_Date P (query req !! "end") = None →
           get_transactions P self req s
           = (send STATUS.UNPROCESSABLE_ENTITY
                (Some (BText "query parameter `end` is not a valid ISO datetime")),
              [], s))
          ∧ (truthy (query req !! "end") = false →
             get_transactions P self req s
             = (sent (list self (<[ "begin" := JDate b ]> (query req)) s).1,
                [List (<[ "begin" := JDate b ]> (query req))],
                (list self (<[ "begin" := JDate b ]> (query req)) s).2))
          ∧ (∀ e, truthy (query req !! "end") = true →
                  new_Date P (query req !! "end") = Some e →
                  get_transactions P self req s
                  = (sent (list self (<[ "end" := JDate e ]>
                                        (<[ "begin" := JDate b ]> (query req))) s).1,
                     [List (<[ "end" := JDate e ]>
                              (<[ "begin" := JDate b ]> (query req)))],
                     (list self (<[ "end" := JDate e ]>
                                   (<[ "begin" := JDate b ]> (query req))) s).2))).
Proof.
  unfold get_transactions. rewrite merge2_empty. split_and!.
  - by intros ->.
  - by intros -> ->.
  - intros b -> ->. simpl. rewrite lookup_insert_ne by done. split_and!.
    + by intros -> ->.
    + intros ->. by destruct (list self _ s) as [[] ?].
    + intros e -> ->. by destruct (list self _ s) as [[] ?].
Qed.

End ListRoute.

(** ** The routes of the example that only read *)

Section ReadOnly.
Import PaymentReceiver.
Context (P : Platform).

(** X5.  [POST /api/validate], [GET /api/transactions/:id] and
    [GET /api/transactions] leave both tables of the example as they were,
    whatever the request and whichever round trips fail. *)
Theorem reading_routes_change_nothing (req : Request) (w : World) :
  same_tables w (serve P (POST_validate req) w).2
  ∧ same_tables w (serve P (GET_transaction req) w).2
  ∧ same_tables w (serve P (GET_transactions req) w).2.
Proof.
  split_and!; simpl.
  - unfold post_validate. destruct (negb _); [done|]. simpl.
    pose proof (validate_tables P (body req) w).
    by destruct (receiver.validate P _ w) as [[] ?].
  - unfold get_transaction. simpl.
    pose proof (get_tables P (req_params req !! "id") w).
    by destruct (receiver.get P _ w) as [[] ?].
  - unfold get_transactions. destruct (negb _); [done|].
    destruct (new_Date _ _) as [b|]; [|done].
    match goal with
    | |- context [match ?x with Some _ => _ | None => _ end] =>
      destruct x as [query|]; [|done]
    end.
    simpl. pose proof (list_tables P query w).
    by destruct (receiver.list P query w) as [[] ?].
Qed.

(** X6.  With the store answering and requisites unique, [POST
    /api/validate] with a non-empty requisite text calls [validate] once,
    with the body, leaves the store as it was, and answers 404 [account
    doesn't exist] when no account has the requisite, 403 [Please activate
    your account] when the account is suspended or deleted, and 200 with the
    full name when it is active (the bare status when the name is
    empty). *)
Theorem validate_route_outcomes (req : Request) (w : World) (r : string) :
  faults w = [] →
  NoDup (map acc_requisite (accounts w)) →
  body req !! "requisite" = Some (JStr r) → r ≠ "" →
  ∃ res,
    post_validate (receiver.implementation P) req w
    = (res, [Validate (body req)], w)
    ∧ ((∀ a, a ∈ accounts w → acc_requisite a ≠ r) →
       res = send STATUS.NOT_FOUND (Some (BText "account doesn't exist")))
    ∧ (∀ a, a ∈ accounts w → acc_requisite a = r →
         res = if decide (acc_status a = active)
               then respond STATUS.OK (Some (BText (full_name a)))
               else send STATUS.FORBIDDEN
                      (Some (BText "Please activate your account"))).
Proof.
  intros Hq Hnd Hr Hne. unfold post_validate. rewrite merge2_empty, Hr.
  simpl. destruct (String.eqb_spec r ""); [done|]. simpl.
  rewrite validate_quiet by done. rewrite Hr. unfold sql_text.
  unfold accounts_by_requisite.
  destruct (filter _ (accounts w)) as [|x l] eqn:Hf.
  - eexists. split_and!; [done|done|].
    intros a Ha Hreq.
    assert (a ∈ filter (λ a, acc_requisite a = r) (accounts w)) as Hin
      by (by apply list_elem_of_filter).
    rewrite Hf in Hin. by apply elem_of_nil in Hin.
  - assert (x ∈ filter (λ a, acc_requisite a = r) (accounts w)) as Hin
      by (rewrite Hf; left).
    apply list_elem_of_filter in Hin as [Hxr Hx]. simpl.
    destruct (decide (acc_status x ≠ active)) as [Hst|Hst].
    + eexists. split_and!; [done| |].
      * intros Hnone. by destruct (Hnone x Hx).
      * intros a Ha Hreq.
        rewrite (key_unique acc_requisite _ x a) by (done || congruence).
        by rewrite decide_False.
    + apply dec_stable in Hst. eexists. split_and!; [done| |].
      * intros Hnone. by destruct (Hnone x Hx).
      * intros a Ha Hreq.
        rewrite (key_unique acc_requisite _ x a) by (done || congruence).
        by rewrite decide_True.
Qed.

End ReadOnly.

(** ** The engine of the example: all or nothing *)

Section Atomic.
Import PaymentReceiver.
Context (P : Platform).




(** X8.  Whatever its argument and whichever round trips fail, [cancel]
    leaves both tables as they were, or calls back OK having marked
    cancelled the ledger rows with the id it was given and lowered the
    balance of the account of the first of them, which was not cancelled,
    by its amount: never one of the two writes without the other. *)
Theorem cancel_all_or_nothing (id : option jsval) (w : World) :
  same_tables w (receiver.cancel P id w).2
  ∨ ((receiver.cancel P id w).1 = Cb STATUS.OK None
     ∧ ∃ e row,
         sql_text P id = Some e
         ∧ head (entries e w) = Some row
         ∧ status row ≠ cancelled
         ∧ transactions (receiver.cancel P id w).2
           = cancelled_in e (transactions w)
         ∧ accounts (receiver.cancel P id w).2
           = moved Z.sub (amount row) (account_id row) (accounts w)).
Proof.
  destruct (receiver.cancel P id w) as [cb w'] eqn:Hp. simpl.
  destruct (cancel_tables P _ _ _ _ Hp)
    as [?|(-> & e & row & rest & He & Hsel & Hst & Hupd & Hrows)];
    [by left|right].
  split; [done|].
  apply update_accounts_inr in Hupd as [-> _].
  exists e, row. unfold entries. rewrite Hsel. by split_and!.
Qed.

End Atomic.

(** ** Retrieval on the example *)

Section Retrieval.
Import PaymentReceiver.
Context (P : Platform).

(** X9.  Whichever round trips fail, when [get] calls back with a status it
    is 404 with [transaction doesn't exist] and no ledger row has the id
    asked for, or OK with the entity of a ledger row that has the id asked
    for; with the store answering it does call back with a status. *)
Theorem get_finds_by_external_id (id : option jsval) (w : World) :
  (∀ status body w',
     receiver.get P id w = (Cb status body, w') →
     (status = STATUS.NOT_FOUND
      ∧ body = Some (BText "transaction doesn't exist")
      ∧ ∀ row, row ∈ transactions w → Some (external_id row) ≠ sql_text P id)
     ∨ (status = STATUS.OK
        ∧ ∃ row, body = Some (BEntity (Transaction row))
                 ∧ row ∈ transactions w
                 ∧ sql_text P id = Some (external_id row)
                 ∧ sql_text P id = Some (Transaction.id (Transaction row))))
  ∧ (faults w = [] →
     ∃ status body, receiver.get P id w = (Cb status body, w)).
Proof.
  split.
  - intros status body' w'. unfold receiver.get, connect, client_query.
    step_rt; [done|]. step_rt; [done|].
    unfold transactions_by_external_id.
    destruct (sql_text P id) as [e|] eqn:He.
    + destruct (filter _ (transactions w)) as [|row rest] eqn:Hf;
        intros; simplify_eq.
      * left. split_and!; try done. intros row Hrow [= Heq].
        assert (row ∈ filter (λ r, external_id r = e) (transactions w)) as Hin
          by (by apply list_elem_of_filter).
        rewrite Hf in Hin. by apply elem_of_nil in Hin.
      * right. split; [done|]. exists row.
        assert (row ∈ filter (λ r, external_id r = e) (transactions w)) as Hin
          by (rewrite Hf; left).
        apply list_elem_of_filter in Hin as [<- ?]. by split_and!.
    + intros; simplify_eq. left. by split_and!.
  - intros Hq. rewrite get_quiet by done.
    destruct (transactions_by_external_id _ _); eauto.
Qed.

(** X10.  Under the hypotheses of C1, once the notification has been
    answered, [GET /api/transactions/:id] with its id answers 200 with the
    very entity the notification was answered with, and leaves the store as
    it is.  The [timestamp] of that entity is the time of completion as the
    driver hands it over: cut to its whole millisecond. *)
Theorem get_after_post_same_entity (req : Request) (w : World)
    (account : Account) (r : string) (c t : Z) :
  consistent w → faults w = [] →
  body req !! "requisite" = Some (JStr r) →
  body req !! "amount" = Some (JNum c) →
  truthy (body req !! "timestamp") = true →
  new_Date P (body req !! "timestamp") = Some t →
  (String.length (route_id req) ≤ 24)%nat → 0 < c < 10 ^ 8 →
  account ∈ accounts w → acc_requisite account = r →
  acc_status account = active → balance account + c < 10 ^ 12 →
  entries (route_id req) w = [] →
  ∃ entity w1,
    answer (post_transaction P (receiver.implementation P) req) w
    = (send STATUS.OK (Some (BEntity entity)), w1)
    ∧ get_transaction (receiver.implementation P) req w1
      = (send STATUS.OK (Some (BEntity entity)),
         [Get (Some (JStr (route_id req)))], w1)
    ∧ Transaction.id entity = route_id req
    ∧ Transaction.requisite entity = r
    ∧ Transaction.amount entity = c
    ∧ Transaction.status entity = success
    ∧ Transaction.timestamp entity = Some (Date_of_timestamptz (clock w))
    ∧ Date_of_timestamptz (clock w) ≤ clock w
      < Date_of_timestamptz (clock w) + 1000.
Proof.
  intros Hw Hq Hr Hc Ht Hd He Hc' Hacc Hreq Hact Hbal Hfresh.
  destruct Hw as [Hpk Hrq Hex Hac Htc Hfk Hcov].
  assert (accounts_by_requisite (Some r) (accounts w) = [account]) as Hsel.
  { unfold accounts_by_requisite. subst r.
    by apply (filter_key_unique acc_requisite). }
  destruct (Hac account Hacc) as [Hlr Hb].
  eexists _, _. split_and!.
  - eapply post_fresh; try done; [by subst r|].
    intros x Hx Hid.
    rewrite (key_unique acc_id _ account x) by done. lia.
  - unfold get_transaction, req_params. rewrite lookup_singleton_eq. simpl.
    rewrite get_quiet by done. simpl.
    unfold transactions_by_external_id, sql_text.
    unfold entries in Hfresh. rewrite filter_app, Hfresh. simpl.
    rewrite filter_cons. simpl. by rewrite decide_True.
  - done.
  - done.
  - done.
  - done.
  - done.
  - unfold Date_of_timestamptz.
    pose proof (Z.div_mod (clock w) 1000).
    pose proof (Z.mod_pos_bound (clock w) 1000). lia.
  - unfold Date_of_timestamptz.
    pose proof (Z.div_mod (clock w) 1000).
    pose proof (Z.mod_pos_bound (clock w) 1000). lia.
Qed.

(** X11.  With the store answering, [GET /api/transactions] whose [begin]
    parses to [b] and whose [end] is falsy or parses to [e] answers 200 with
    the entities of exactly the ledger rows completed from [b] on (and up to
    [e]), in ledger order, and leaves the store as it is. *)
Theorem listing_route_returns_range (req : Request) (w : World) (b : Z)
    (e : option Z) :
  faults w = [] →
  truthy (query req !! "begin") = true →
  new_Date P (query req !! "begin") = Some b →
  match e with
  | Some e => truthy (query req !! "end") = true
              ∧ new_Date P (query req !! "end") = Some e
  | None => truthy (query req !! "end") = false
  end →
  (get_transactions P (receiver.implementation P) req w).1.1
  = send STATUS.OK
      (Some (BList (map Transaction
                        (transactions_completed b e (transactions w)))))
  ∧ (get_transactions P (receiver.implementation P) req w).2 = w.
Proof.
  intros Hq Hb Hd He.
  destruct (list_route_passes P (receiver.implementation P) req w b Hb Hd)
    as [Hnone Hsome].
  destruct e as [e|].
  - destruct He as [He1 He2]. rewrite (Hsome e He1 He2). simpl.
    rewrite (list_quiet P _ w b (Some e)); try done.
    + simpl. by rewrite lookup_insert_ne, lookup_insert_eq.
    + simpl. by rewrite lookup_insert_eq.
  - rewrite (Hnone He). simpl.
    rewrite (list_quiet P _ w b None); try done.
    + by rewrite lookup_insert_eq.
    + simpl. by rewrite lookup_insert_ne.
Qed.

Lemma completed_cancelled_in (id : string) (b : Z) (e : option Z)
    (l : Datatypes.list Row) :
  transactions_completed b e (cancelled_in id l)
  = cancelled_in id (transactions_completed b e l).
Proof.
  unfold transactions_completed, cancelled_in.
  induction l as [|r l IH]; [done|]. simpl.
  rewrite !filter_cons, IH.
  destruct (decide (Some (external_id r) = Some id)); simpl;
    unfold completed_within; simpl;
    repeat (destruct (decide _); simpl; try done).
Qed.

(** X12.  Cancelling does not take an entry out of a listing.  On a
    consistent store that answers, for a ledger entry that is not cancelled
    and any range: [list] after the [cancel] of the entry calls back as many
    entities as before it, the entities of the same rows with the cancelled
    one now marked [cancelled]. *)
Theorem cancelled_entry_stays_listed (w : World) (row : Row) (query : Object)
    (b : Z) (e : option Z) :
  consistent w → faults w = [] →
  row ∈ transactions w → status row ≠ cancelled →
  query !! "begin" = Some (JDate b) → end_given query e →
  ∃ w1 l l1,
    receiver.list P query w = (Cb STATUS.OK (Some (BList l)), w)
    ∧ receiver.cancel P (Some (JStr (external_id row))) w
      = (Cb STATUS.OK None, w1)
    ∧ receiver.list P query w1 = (Cb STATUS.OK (Some (BList l1)), w1)
    ∧ length l1 = length l
    ∧ l1 = map Transaction
             (cancelled_in (external_id row)
                (transactions_completed b e (transactions w))).
Proof.
  intros Hw Hq Hrow Hst Hb He.
  pose proof Hw as [Hpk Hrq Hex Hac Htc Hfk Hcov].
  assert (filter (λ x, external_id x = external_id row) (transactions w) = [row])
    as Hsel by (by apply (filter_key_unique external_id)).
  destruct (Hfk row Hrow) as (owner & Hown & Hoid).
  destruct (Htc row Hrow) as [_ Hamt].
  pose proof (covered_by_owner w row owner Hw Hrow Hst Hown Hoid) as Hcover.
  eexists _, _, _. split_and!.
  - by apply list_quiet.
  - eapply cancel_live; try done. intros x Hx Hxid.
    by rewrite (key_unique acc_id _ owner x) by (done || congruence).
  - rewrite (list_quiet P query _ b e) by done. done.
  - simpl. rewrite completed_cancelled_in. unfold cancelled_in.
    by rewrite !length_map.
  - simpl. by rewrite completed_cancelled_in.
Qed.

End Retrieval.

(** ** Edges of the engine of the example *)

Section Edges.
Import PaymentReceiver.
Context (P : Platform).

Lemma update_accounts_refused op c a l owner err :
  NoDup (map acc_id l) → owner ∈ l → acc_id owner = a →
  set_balance op c owner = inl err →
  update_accounts op c a l = inl err.
Proof.
  induction l as [|x l IH]; intros Hnd Hin Hid Hset.
  - by apply elem_of_nil in Hin.
  - simpl in Hnd. apply NoDup_cons in Hnd as [Hx Hnd].
    unfold update_accounts. fold update_accounts.
    apply elem_of_cons in Hin as [<-|Hin].
    + rewrite decide_True by done. by rewrite Hset.
    + rewrite decide_False.
      * by rewrite (IH Hnd Hin Hid Hset).
      * intros Heq. apply Hx. rewrite Heq, <- Hid.
        apply list_elem_of_fmap. eauto.
Qed.

(** X13.  With the store answering and account ids unique, cancelling a
    live entry whose amount the balance of its account does not cover is
    refused by [CHECK ("balance" >= 0.00)]: [cancel] calls back that error,
    [DELETE] is answered 500 with its [toString()], and both tables are as they
    were, the entry still not cancelled. *)
Theorem cancel_overdraw_refused (req : Request) (w : World) (row : Row)
    (rest : Datatypes.list Row) (owner : Account) :
  faults w = [] →
  NoDup (map acc_id (accounts w)) →
  filter (λ x, external_id x = route_id req) (transactions w) = row :: rest →
  status row ≠ cancelled → 0 < amount row < 10 ^ 8 →
  owner ∈ accounts w → acc_id owner = account_id row →
  - 10 ^ 12 < balance owner - amount row < 0 →
  ∃ w',
    receiver.cancel P (Some (JStr (route_id req))) w
    = (CbErr (PgError.check_violation "accounts_balance_check"), w')
    ∧ delete_transaction (receiver.implementation P) req w
      = (internal_server_error (PgError.check_violation "accounts_balance_check"),
         [Cancel (Some (JStr (route_id req)))], w')
    ∧ same_tables w w'
    ∧ entries (route_id req) w' = row :: rest.
Proof.
  intros Hq Hnd Hsel Hst Hamt Hown Hid Hbal.
  assert (∃ w', receiver.cancel P (Some (JStr (route_id req))) w
                = (CbErr (PgError.check_violation "accounts_balance_check"), w')
                ∧ same_tables w w') as (w' & Hc & Hs).
  { unfold receiver.cancel. unfold sql_text.
    destruct w as [accs rows k now fs]; simpl in Hq; subst fs.
    unfold db_transaction, connect, txn_query, txn_commit, txn_abort,
      round_trip. simpl in *.
    unfold transactions_by_external_id. rewrite Hsel.
    rewrite decide_False by done.
    unfold UPDATE_accounts_balance.
    replace (numeric_fits 8 (amount row)) with true
      by (symmetry; apply Z.ltb_lt; lia).
    simpl.
    rewrite (update_accounts_refused Z.sub (amount row) (account_id row) accs
               owner (PgError.check_violation "accounts_balance_check"));
      try done.
    - simpl. by eexists.
    - unfold set_balance, numeric_fits.
      replace (Z.abs (balance owner - amount row) <? 10 ^ 12) with true
        by (symmetry; apply Z.ltb_lt; lia).
      simpl.
      by replace (balance owner - amount row <? 0) with true
        by (symmetry; apply Z.ltb_lt; lia). }
  exists w'. split_and!; try done.
  - by rewrite (delete_transaction_completion (receiver.implementation P)
                 req w _ w' Hc).
  - unfold entries. destruct Hs as [_ ->]. done.
Qed.

(** X14.  When the connection or the [BEGIN] of [cancel] fails, [cancel]
    makes no callback ([done] is not passed on that path, so [done(err)]
    raises) and [DELETE] goes unanswered; [process] in the same situation
    calls back the error.  Both leave the tables as they were. *)
Theorem cancel_without_transaction_never_calls_back (id : option jsval)
    (params : Object) (req : Request) (w : World) (err : Error)
    (rest : Datatypes.list (option Error)) :
  faults w = Some err :: rest ∨ faults w = None :: Some err :: rest →
  ∃ w',
    receiver.cancel P id w = (Thrown, w')
    ∧ receiver.process P params w = (CbErr err, w')
    ∧ delete_transaction (receiver.implementation P) req w
      = (NoResponse, [Cancel (Some (JStr (route_id req)))], w')
    ∧ same_tables w w'.
Proof.
  destruct w as [accs rows k now fs]. simpl.
  intros [->| ->];
    unfold delete_transaction, req_params; rewrite lookup_singleton_eq;
    unfold receiver.cancel, receiver.process, db_transaction, connect,
      round_trip; simpl; by eexists.
Qed.

(** X15.  With the store answering, a notification whose external id is
    already in the ledger changes nothing, whatever it carries: for any
    active account and any well-formed amount it is answered 200 with the
    entity of the entry already stored, with that entry's amount, requisite
    and status (also when that status is cancelled) and not those of the
    notification. *)
Theorem replay_never_rewrites (req : Request) (w : World) (t : Z) (r : string)
    (c : Z) (account : Account) (others : Datatypes.list Account) (row : Row)
    (rows : Datatypes.list Row) :
  faults w = [] →
  body req !! "requisite" = Some (JStr r) →
  body req !! "amount" = Some (JNum c) →
  truthy (body req !! "timestamp") = true →
  new_Date P (body req !! "timestamp") = Some t →
  accounts_by_requisite (Some r) (accounts w) = account :: others →
  acc_status account = active →
  (String.length (route_id req) ≤ 24)%nat → (String.length r ≤ 32)%nat →
  0 < c < 10 ^ 8 →
  entries (route_id req) w = row :: rows →
  ∃ entity w',
    answer (post_transaction P (receiver.implementation P) req) w
    = (send STATUS.OK (Some (BEntity entity)), w')
    ∧ same_tables w w'
    ∧ Transaction.amount entity = amount row
    ∧ Transaction.requisite entity = requisite row
    ∧ Transaction.status entity = status row.
Proof.
  intros. eexists _, _. split_and!.
  - by eapply post_replay.
  - done.
  - done.
  - done.
  - done.
Qed.

End Edges.

Section Refusals.
Import PaymentReceiver.
Context (P : Platform).





(** X18.  With the store answering, a notification that passes the
    parameter checks but carries no requisite (none, or [null]) is answered
    404 [account doesn't exist] by [validate], not 400: the handler of
    [POST /api/transactions/:id] does not check the requisite.  [process] is
    not called and the store is as it was. *)
Theorem notification_without_requisite (req : Request) (w : World) (t : Z) :
  faults w = [] →
  truthy (body req !! "amount") = true →
  truthy (body req !! "timestamp") = true →
  new_Date P (body req !! "timestamp") = Some t →
  body req !! "requisite" = None ∨ body req !! "requisite" = Some JNull →
  post_transaction P (receiver.implementation P) req w
  = (send STATUS.NOT_FOUND (Some (BText "account doesn't exist")),
     [Validate (process_params req t)], w).
Proof.
  intros Hq Ha Ht Hd Hr. rewrite (post_transaction_checked _ _ _ _ t) by done.
  simpl. rewrite validate_quiet by done.
  rewrite process_params_body by done.
  by destruct Hr as [-> | ->].
Qed.

End Refusals.

(** ** What every request keeps *)

Section Kept.
Import PaymentReceiver.
Context (P : Platform).

Lemma served_invariant (I : World → Prop) hs w :
  (∀ w w', same_tables w w' → I w → I w') →
  (∀ params w, I w → I (receiver.process P params w).2) →
  (∀ id w, I w → I (receiver.cancel P id w).2) →
  I w → I (served P hs w).
Proof.
  intros Hs Hp Hc. revert w. induction hs as [|h hs IH]; intros w Hw; [done|].
  simpl. apply IH. by apply serve_invariant.
Qed.

Lemma moved_identity op c a l : map identity (moved op c a l) = map identity l.
Proof.
  unfold moved. rewrite map_map. apply map_ext. intros x. by case_decide.
Qed.

Lemma set_cancelled_idemp r : set_cancelled (set_cancelled r) = set_cancelled r.
Proof. done. Qed.

Lemma kept_cancelled_in e r l : kept r l → kept r (cancelled_in e l).
Proof.
  unfold kept, cancelled_in. intros [Hr|Hr].
  - destruct (decide (Some (external_id r) = Some e)) as [He|He].
    + right. apply list_elem_of_fmap. exists r. by rewrite decide_True.
    + left. apply list_elem_of_fmap. exists r. by rewrite decide_False.
  - right. apply list_elem_of_fmap. exists (set_cancelled r).
    split; [|done]. by case_decide.
Qed.

(** X19.  Whatever requests the example server answers and whichever round
    trips fail, no ledger row is ever removed or altered other than by its
    status becoming [cancelled], the ledger never gets shorter, and the
    accounts stay the same accounts: same ids, requisites, names and
    statuses, in the same order. *)
Theorem ledger_only_grows (hs : Datatypes.list Http) (w : World) :
  (∀ r, r ∈ transactions w → kept r (transactions (served P hs w)))
  ∧ (length (transactions w) ≤ length (transactions (served P hs w)))%nat
  ∧ map identity (accounts (served P hs w)) = map identity (accounts w).
Proof.
  apply (served_invariant
           (λ w', (∀ r, r ∈ transactions w → kept r (transactions w'))
                  ∧ (length (transactions w) ≤ length (transactions w'))%nat
                  ∧ map identity (accounts w') = map identity (accounts w))).
  - intros w1 w2 [Ha Ht]. by rewrite Ha, Ht.
  - intros params w1 (Hk & Hl & Hi).
    destruct (receiver.process P params w1) as [cb w2] eqn:Hp. simpl.
    destruct (process_tables P _ _ _ _ Hp)
      as [[Ha Ht]|(_ & account & c & row & _ & _ & _ & Hupd & Hrows)].
    + by rewrite Ha, Ht.
    + apply update_accounts_inr in Hupd as [-> _]. rewrite Hrows.
      split_and!.
      * intros r Hr. destruct (Hk r Hr) as [?|?]; [left|right];
          apply elem_of_app; by left.
      * rewrite length_app. lia.
      * by rewrite moved_identity.
  - intros id w1 (Hk & Hl & Hi).
    destruct (receiver.cancel P id w1) as [cb w2] eqn:Hp. simpl.
    destruct (cancel_tables P _ _ _ _ Hp)
      as [[Ha Ht]|(_ & e & row & rest & _ & _ & _ & Hupd & Hrows)].
    + by rewrite Ha, Ht.
    + apply update_accounts_inr in Hupd as [-> _]. rewrite Hrows.
      split_and!.
      * intros r Hr. by apply kept_cancelled_in, Hk.
      * unfold cancelled_in. by rewrite length_map.
      * by rewrite moved_identity.
  - split_and!; [by left|done|done].
Qed.





End Kept.

(** ** Notifications with different ids add up *)

Section Batch.
Import PaymentReceiver.
Context (P : Platform).

Lemma answer_inv {St : Type} (h : St → Response * Datatypes.list Call * St)
    s res s' :
  answer h s = (res, s') → ∃ calls, h s = (res, calls, s').
Proof.
  unfold answer. destruct (h s) as [[res' calls] s'']. intros [= -> ->]. eauto.
Qed.

Lemma total_nonneg r (batch : Datatypes.list (Request * Z)) :
  Forall (λ x, notifies P r x.1 x.2) batch → 0 ≤ total (map snd batch).
Proof.
  induction 1 as [|[req c] l (_ & _ & _ & _ & _ & Hc) _ IH]; simpl; [done|].
  simpl in Hc. unfold total in *. lia.
Qed.

(** X22.  On a consistent store that answers, notifications for one active
    account with pairwise different external ids, none of them in the
    ledger, all well formed, and whose amounts together keep the balance
    under the column's [10 ^ 12]: answered in a row they each get 200 with
    an entity, the ledger grows by one row per notification, in order, with
    their ids and amounts, and the balance of the account ends up higher by
    the sum of the amounts. *)
Theorem distinct_notifications_add_up (batch : Datatypes.list (Request * Z)) :
  ∀ (w : World) (account : Account) (r : string),
  consistent w → faults w = [] →
  account ∈ accounts w → acc_requisite account = r →
  acc_status account = active →
  Forall (λ x, notifies P r x.1 x.2) batch →
  NoDup (map (λ x, route_id x.1) batch) →
  Forall (λ x, entries (route_id x.1) w = []) batch →
  balance account + total (map snd batch) < 10 ^ 12 →
  ∃ rs w',
    answers P (map (λ x, POST_transaction x.1) batch) w = (rs, w')
    ∧ length rs = length batch
    ∧ Forall (λ res, ∃ entity, res = send STATUS.OK (Some (BEntity entity))) rs
    ∧ map external_id (transactions w')
      = map external_id (transactions w) ++ map (λ x, route_id x.1) batch
    ∧ map amount (transactions w')
      = map amount (transactions w) ++ map snd batch
    ∧ balance_of (acc_id account) w'
      = Some (balance account + total (map snd batch)).
Proof.
  induction batch as [|[req c] batch IH];
    intros w account r Hw Hq Hacc Hreq Hact Hn Hnd Hfresh Hbal.
  { exists [], w. simpl. rewrite !app_nil_r.
    split_and!; try done. destruct Hw.
    rewrite balance_of_elem by done. f_equal. unfold total. simpl. lia. }
  apply Forall_cons in Hn as [(Hr & Hc & Ht & [t Hd] & He & Hc') Hn].
  apply Forall_cons in Hfresh as [Hfr Hfresh].
  simpl in Hnd. apply NoDup_cons in Hnd as [Hnew Hnd].
  simpl in *.
  pose proof (total_nonneg _ _ Hn) as Hpos.
  pose proof Hw as [Hpk Hrq Hex Hac Htc Hfk Hcov].
  assert (accounts_by_requisite (Some r) (accounts w) = [account]) as Hsel.
  { unfold accounts_by_requisite. subst r.
    by apply (filter_key_unique acc_requisite). }
  destruct (Hac account Hacc) as [Hlr Hb].
  set (row := stored req w (acc_id account) r c).
  set (w1 := mkWorld (moved Z.add c (acc_id account) (accounts w))
                     (transactions w ++ [row])
                     (transactions_id_seq w + 1) (clock w + 1) []).
  assert (answer (post_transaction P (receiver.implementation P) req) w
          = (send STATUS.OK (Some (BEntity (Transaction row))), w1)) as H1.
  { eapply post_fresh; try done; [by subst r|].
    intros x Hx Hid.
    rewrite (key_unique acc_id _ account x) by done.
    unfold total in *. lia. }
  apply answer_inv in H1 as [calls H1].
  set (account' := mkAccount (acc_id account) (acc_requisite account)
                     (full_name account) (acc_status account)
                     (balance account + c)).
  destruct (IH w1 account' r) as (rs & w' & Hrs & Hlen & Hok & Hids & Hamts & Hb');
    try done.
  - replace w1 with (serve P (POST_transaction req) w).2
      by (simpl; by rewrite H1).
    by apply consistent_serve.
  - simpl. unfold moved. apply list_elem_of_fmap. exists account.
    by rewrite decide_True.
  - apply Forall_forall. intros x Hx.
    rewrite Forall_forall in Hfresh. specialize (Hfresh x Hx).
    unfold entries in *. simpl. rewrite filter_app, Hfresh. simpl.
    rewrite filter_cons. simpl. rewrite decide_False; [done|].
    intros Heq. apply Hnew. rewrite Heq.
    apply list_elem_of_fmap. by exists x.
  - simpl. unfold total in *. simpl in Hbal. lia.
  - exists (send STATUS.OK (Some (BEntity (Transaction row))) :: rs), w'.
    rewrite H1, Hrs. split_and!.
    + done.
    + simpl. by rewrite Hlen.
    + constructor; [by eexists|done].
    + rewrite Hids. simpl. rewrite map_app. simpl. by rewrite <- app_assoc.
    + rewrite Hamts. simpl. rewrite map_app. simpl. by rewrite <- app_assoc.
    + simpl in Hb'. rewrite Hb'. f_equal. unfold total. simpl. lia.
Qed.

End Batch.

(** ** The connection string *)

(** X23.  With [user] and [database] set to texts: without [password] and
    [host] the server connects to [localhost] with no password part; a
    [host] given as [{ENV: var}] whose variable is not set makes the host
    [undefined], the default [localhost] being used only when the key is
    missing; a non-empty [password] text is put after a colon; and a
    setting that is [null] makes [connect] raise before it connects. *)
Theorem connection_string_settings (configs : gmap string Config.setting)
    (env : gmap string string) (u d : string) :
  configs !! "user" = Some (Config.Text u) →
  configs !! "database" = Some (Config.Text d) →
  (configs !! "password" = None → configs !! "host" = None →
   Config.conString configs env
   = Some (("postgres://" +:+ u) +:+ "@" +:+ "localhost" +:+ "/" +:+ d))
  ∧ (∀ var, configs !! "password" = None →
            configs !! "host" = Some (Config.Env var) → var ≠ "" →
            env !! var = None →
            Config.conString configs env
            = Some (("postgres://" +:+ u) +:+ "@" +:+ "undefined" +:+ "/" +:+ d))
  ∧ (∀ p h, configs !! "password" = Some (Config.Text p) → p ≠ "" →
            configs !! "host" = Some (Config.Text h) →
            Config.conString configs env
            = Some ((("postgres://" +:+ u) +:+ ":" +:+ p)
                    +:+ "@" +:+ h +:+ "/" +:+ d))
  ∧ (configs !! "password" = Some Config.Null ∨ configs !! "host" = Some Config.Null →
     Config.conString configs env = None).
Proof.
  intros Hu Hd. unfold Config.conString, Config.getConfig. rewrite Hu, Hd.
  simpl. split_and!.
  - by intros -> ->.
  - intros var -> -> Hv ->. simpl.
    by destruct (String.eqb_spec var "").
  - intros p h -> Hp ->. simpl. by destruct (String.eqb_spec p "").
  - intros [-> | ->]; [done|]. by repeat case_match.
Qed.

(** ** Routes that always answer *)

Section Answered.
Import PaymentReceiver.
Context (P : Platform).

Lemma validate_never_raises params w :
  (receiver.validate P params w).1 ≠ Thrown.
Proof.
  unfold receiver.validate, connect, client_query.
  step_rt; [done|]. step_rt; [done|].
  destruct (accounts_by_requisite _ _); [done|]. by case_decide.
Qed.

Lemma validate_ok_selects params w b w' :
  receiver.validate P params w = (Cb STATUS.OK b, w') →
  accounts_by_requisite (sql_text P (params !! "requisite")) (accounts w) ≠ [].
Proof.
  unfold receiver.validate, connect, client_query.
  step_rt; [done|]. step_rt; [done|].
  by destruct (accounts_by_requisite _ _).
Qed.

Lemma process_raises_without_account params w w' :
  receiver.process P params w = (Thrown, w') →
  accounts_by_requisite (sql_text P (params !! "requisite")) (accounts w) = [].
Proof.
  unfold receiver.process, db_transaction, connect, txn_query, txn_commit,
    txn_abort.
  step_rt; [done|]. step_rt; [done|]. step_rt; [done|].
  destruct (accounts_by_requisite _ _) as [|account rest]; [done|].
  step_rt.
  { step_rt; by destruct (isDuplicateIdConstraint e). }
  unfold INSERT_transaction. simpl.
  destruct (sql_numeric P (params !! "amount")); simpl.
  - destruct (new_transaction _ _ _ _ _ _ _ _); simpl.
    + step_rt; by destruct (isDuplicateIdConstraint _).
    + step_rt; [by step_rt|]. step_rt; done.
  - step_rt; by destruct (isDuplicateIdConstraint _).
  - destruct (new_transaction _ _ _ _ _ _ _ _); simpl.
    + step_rt; by destruct (isDuplicateIdConstraint _).
    + step_rt; [by step_rt|].
      unfold UPDATE_accounts_balance.
      destruct (negb (numeric_fits 8 a)); simpl; [by step_rt|].
      destruct (update_accounts _ _ _ _); simpl; [by step_rt|].
      step_rt; done.
Qed.

Lemma get_never_raises id w : (receiver.get P id w).1 ≠ Thrown.
Proof.
  unfold receiver.get, connect, client_query.
  step_rt; [done|]. step_rt; [done|].
  by destruct (transactions_by_external_id _ _).
Qed.

Lemma list_never_raises query w : (receiver.list P query w).1 ≠ Thrown.
Proof.
  unfold receiver.list, connect, client_query.
  step_rt; [done|]. step_rt; [done|].
  repeat case_match; done.
Qed.

Lemma respond_answers status b : respond status b ≠ NoResponse.
Proof. unfold respond. by destruct (negb _). Qed.

(** X24.  Every route of the example but [DELETE] always answers, whatever
    the request and whichever round trips fail: [validate], [get] and [list]
    never raise, and [process] raises only when no account has the
    requisite, which [validate], called just before it on the same tables,
    has excluded. *)
Theorem routes_always_answer (req : Request) (w : World) :
  (serve P (POST_validate req) w).1.1 ≠ NoResponse
  ∧ (serve P (POST_transaction req) w).1.1 ≠ NoResponse
  ∧ (serve P (GET_transaction req) w).1.1 ≠ NoResponse
  ∧ (serve P (GET_transactions req) w).1.1 ≠ NoResponse.
Proof.
  split_and!; simpl.
  - unfold post_validate. destruct (negb _); [done|]. simpl.
    pose proof (validate_never_raises (body req) w).
    destruct (receiver.validate P _ w) as [[] ?]; simpl;
      [done|apply respond_answers|done].
  - unfold post_transaction.
    destruct (negb _); [done|]. destruct (negb _); [done|].
    destruct (new_Date _ _) as [t|]; [|done]. simpl.
    set (params := <[ "timestamp" := JDate t ]> _).
    pose proof (validate_never_raises params w) as Hv.
    pose proof (validate_tables P params w) as [Hacc _].
    destruct (receiver.validate P params w) as [[err|status b|] w1] eqn:Hval;
      simpl in *; [done| |done].
    case_decide as Hst; [apply respond_answers|]. subst status.
    apply validate_ok_selects in Hval.
    unfold after_validate. simpl.
    pose proof (process_raises_without_account params w1) as Hp.
    destruct (receiver.process P params w1) as [[err|status b'|] w2]; simpl.
    + done.
    + case_decide; [|apply respond_answers].
      pose proof (get_never_raises (params !! "id") w2).
      destruct (receiver.get P _ w2) as [[] ?]; simpl;
        [done|apply respond_answers|done].
    + exfalso. apply Hval. rewrite <- Hacc. by eapply Hp.
  - unfold get_transaction. simpl.
    pose proof (get_never_raises (req_params req !! "id") w).
    by destruct (receiver.get P _ w) as [[] ?].
  - unfold get_transactions. destruct (negb _); [done|].
    destruct (new_Date _ _) as [b|]; [|done].
    match goal with
    | |- context [match ?x with Some _ => _ | None => _ end] =>
      destruct x as [query|]; [|done]
    end.
    simpl. pose proof (list_never_raises query w).
    by destruct (receiver.list P query w) as [[] ?].
Qed.

End Answered.

(** ** The further properties on concrete cases *)

Lemma address_check_reads_forwarded_header_witness :
  Server.use Server.checkIp (Server.mkPeer (Some "10.0.0.1") (Some "192.168.0.7"))
    (serve Scenario.platform (GET_transaction Scenario.notification))
    Scenario.seeded
  = Server.use Server.checkIp (Server.mkPeer (Some "10.0.0.1") None)
      (serve Scenario.platform (GET_transaction Scenario.notification))
      Scenario.seeded.
Proof.
  apply (proj1 (address_check_reads_forwarded_header Server.checkIp "10.0.0.1"
                  (Some "192.168.0.7") None
                  (serve Scenario.platform (GET_transaction Scenario.notification))
                  Scenario.seeded ltac:(discriminate))).
Defined.

Lemma prototype_validate_blocks_process_witness :
  ∃ res calls,
    PaymentReceiver.post_transaction Scenario.platform
      (PaymentReceiver.prototype World) Scenario.notification Scenario.seeded
    = (res, calls, Scenario.seeded)
    ∧ Forall (λ c, is_validate c = true) calls
    ∧ (res = PaymentReceiver.sendStatus STATUS.NOT_IMPLEMENTED
       ∨ ∃ m, res = PaymentReceiver.send STATUS.BAD_REQUEST (Some (BText m))
              ∨ res = PaymentReceiver.send STATUS.UNPROCESSABLE_ENTITY
                        (Some (BText m))).
Proof.
  apply (prototype_validate_blocks_process Scenario.platform
           (PaymentReceiver.prototype World) Scenario.notification
           Scenario.seeded).
  reflexivity.
Defined.

Lemma validate_route_outcomes_witness :
  ∃ res,
    PaymentReceiver.post_validate (receiver.implementation Scenario.platform)
      Cases.identify Scenario.seeded
    = (res, [PaymentReceiver.Validate (PaymentReceiver.body Cases.identify)],
       Scenario.seeded)
    ∧ ((∀ a, a ∈ accounts Scenario.seeded → acc_requisite a ≠ "996700650835") →
       res = PaymentReceiver.send STATUS.NOT_FOUND
               (Some (BText "account doesn't exist")))
    ∧ (∀ a, a ∈ accounts Scenario.seeded → acc_requisite a = "996700650835" →
         res = if decide (acc_status a = active)
               then PaymentReceiver.respond STATUS.OK (Some (BText (full_name a)))
               else PaymentReceiver.send STATUS.FORBIDDEN
                      (Some (BText "Please activate your account"))).
Proof.
  apply (validate_route_outcomes Scenario.platform Cases.identify
           Scenario.seeded "996700650835").
  - reflexivity.
  - apply (accounts_requisite_idx _ seeded_consistent).
  - reflexivity.
  - discriminate.
Defined.

Lemma get_after_post_same_entity_witness :
  ∃ entity w1,
    answer (PaymentReceiver.post_transaction Scenario.platform
              (receiver.implementation Scenario.platform) Scenario.notification)
           Cases.later
    = (PaymentReceiver.send STATUS.OK (Some (BEntity entity)), w1)
    ∧ PaymentReceiver.get_transaction
        (receiver.implementation Scenario.platform) Scenario.notification w1
      = (PaymentReceiver.send STATUS.OK (Some (BEntity entity)),
         [PaymentReceiver.Get (Some (JStr "5648dc5077ba42ee6b13ff6f"))], w1)
    ∧ Transaction.id entity = "5648dc5077ba42ee6b13ff6f"
    ∧ Transaction.requisite entity = "996700650835"
    ∧ Transaction.amount entity = 4595
    ∧ Transaction.status entity = success
    ∧ Transaction.timestamp entity = Some 1000000
    ∧ 1000000 ≤ 1000993 < 1000000 + 1000.
Proof.
  apply (get_after_post_same_entity Scenario.platform Scenario.notification
           Cases.later
           (mkAccount 1 "996700650835" "Dan Kerimdzhanov" active 0)
           "996700650835" 4595 0).
  - apply later_consistent.
  - reflexivity.
  - reflexivity.
  - reflexivity.
  - reflexivity.
  - reflexivity.
  - simpl. lia.
  - lia.
  - left.
  - reflexivity.
  - reflexivity.
  - simpl. lia.
  - reflexivity.
Defined.

Lemma listing_route_returns_range_witness :
  (PaymentReceiver.get_transactions Cases.calendar
     (receiver.implementation Cases.calendar) Cases.between
     Scenario.applied).1.1
  = PaymentReceiver.send STATUS.OK
      (Some (BList (map Transaction
                        (transactions_completed 500 (Some 2000)
                           (transactions Scenario.applied)))))
  ∧ (PaymentReceiver.get_transactions Cases.calendar
       (receiver.implementation Cases.calendar) Cases.between
       Scenario.applied).2 = Scenario.applied.
Proof.
  apply (listing_route_returns_range Cases.calendar Cases.between
           Scenario.applied 500 (Some 2000)).
  - reflexivity.
  - reflexivity.
  - reflexivity.
  - split; reflexivity.
Defined.

Lemma cancelled_entry_stays_listed_witness :
  ∃ w1 l l1,
    receiver.list Scenario.platform
      (<[ "begin" := JDate 500 ]> ∅) Scenario.applied
    = (Cb STATUS.OK (Some (BList l)), Scenario.applied)
    ∧ receiver.cancel Scenario.platform
        (Some (JStr "5648dc5077ba42ee6b13ff6f")) Scenario.applied
      = (Cb STATUS.OK None, w1)
    ∧ receiver.list Scenario.platform (<[ "begin" := JDate 500 ]> ∅) w1
      = (Cb STATUS.OK (Some (BList l1)), w1)
    ∧ length l1 = length l
    ∧ l1 = map Transaction
             (cancelled_in "5648dc5077ba42ee6b13ff6f"
                (transactions_completed 500 None (transactions Scenario.applied))).
Proof.
  apply (cancelled_entry_stays_listed Scenario.platform Scenario.applied
           Scenario.applied_row (<[ "begin" := JDate 500 ]> ∅) 500 None).
  - apply applied_consistent.
  - reflexivity.
  - left.
  - discriminate.
  - reflexivity.
  - reflexivity.
Defined.

Lemma cancel_overdraw_refused_witness :
  ∃ w',
    receiver.cancel Scenario.platform
      (Some (JStr "5648dc5077ba42ee6b13ff6f")) Cases.overdrawn
    = (CbErr (PgError.check_violation "accounts_balance_check"), w')
    ∧ PaymentReceiver.delete_transaction
        (receiver.implementation Scenario.platform) Scenario.notification
        Cases.overdrawn
      = (PaymentReceiver.internal_server_error
           (PgError.check_violation "accounts_balance_check"),
         [PaymentReceiver.Cancel (Some (JStr "5648dc5077ba42ee6b13ff6f"))], w')
    ∧ same_tables Cases.overdrawn w'
    ∧ entries "5648dc5077ba42ee6b13ff6f" w' = [Scenario.applied_row].
Proof.
  apply (cancel_overdraw_refused Scenario.platform Scenario.notification
           Cases.overdrawn Scenario.applied_row []
           (mkAccount 1 "996700650835" "Dan Kerimdzhanov" active 1000)).
  - reflexivity.
  - by refine (bool_decide_unpack _ _).
  - reflexivity.
  - discriminate.
  - simpl. lia.
  - left.
  - reflexivity.
  - simpl. lia.
Defined.

Lemma cancel_without_transaction_never_calls_back_witness :
  ∃ w',
    receiver.cancel Scenario.platform
      (Some (JStr "5648dc5077ba42ee6b13ff6f")) Cases.cannot_begin
    = (Thrown, w')
    ∧ receiver.process Scenario.platform
        (process_params Scenario.notification 0) Cases.cannot_begin
      = (CbErr Scenario.connection_lost, w')
    ∧ PaymentReceiver.delete_transaction
        (receiver.implementation Scenario.platform) Scenario.notification
        Cases.cannot_begin
      = (PaymentReceiver.NoResponse,
         [PaymentReceiver.Cancel (Some (JStr "5648dc5077ba42ee6b13ff6f"))], w')
    ∧ same_tables Cases.cannot_begin w'.
Proof.
  apply (cancel_without_transaction_never_calls_back Scenario.platform
           (Some (JStr "5648dc5077ba42ee6b13ff6f"))
           (process_params Scenario.notification 0) Scenario.notification
           Cases.cannot_begin Scenario.connection_lost []).
  right. reflexivity.
Defined.

Lemma replay_never_rewrites_witness :
  ∃ entity w',
    answer (PaymentReceiver.post_transaction Scenario.platform
              (receiver.implementation Scenario.platform) Cases.other_amount)
           Scenario.applied
    = (PaymentReceiver.send STATUS.OK (Some (BEntity entity)), w')
    ∧ same_tables Scenario.applied w'
    ∧ Transaction.amount entity = 4595
    ∧ Transaction.requisite entity = "996700650835"
    ∧ Transaction.status entity = success.
Proof.
  apply (replay_never_rewrites Scenario.platform Cases.other_amount
           Scenario.applied 0 "996700650835" 100
           (mkAccount 1 "996700650835" "Dan Kerimdzhanov" active 4595)
           [] Scenario.applied_row []).
  - reflexivity.
  - reflexivity.
  - reflexivity.
  - reflexivity.
  - reflexivity.
  - reflexivity.
  - reflexivity.
  - simpl. lia.
  - simpl. lia.
  - lia.
  - reflexivity.
Defined.



Lemma notification_without_requisite_witness :
  PaymentReceiver.post_transaction Scenario.platform
    (receiver.implementation Scenario.platform) Cases.no_requisite
    Scenario.seeded
  = (PaymentReceiver.send STATUS.NOT_FOUND
       (Some (BText "account doesn't exist")),
     [PaymentReceiver.Validate (process_params Cases.no_requisite 0)],
     Scenario.seeded).
Proof.
  apply (notification_without_requisite Scenario.platform Cases.no_requisite
           Scenario.seeded 0).
  - reflexivity.
  - reflexivity.
  - reflexivity.
  - reflexivity.
  - left. reflexivity.
Defined.



Lemma distinct_notifications_add_up_witness :
  ∃ rs w',
    answers Scenario.platform
      (map (λ x, POST_transaction x.1) Cases.three) Scenario.seeded = (rs, w')
    ∧ length rs = 3%nat
    ∧ Forall (λ res, ∃ entity,
                res = PaymentReceiver.send STATUS.OK (Some (BEntity entity))) rs
    ∧ map external_id (transactions w')
      = ["5648dc5077ba42ee6b13ff6f"; "564a50cb77ba42ee6b1407ca";
         "564a4ff477ba42ee6b1407c9"]
    ∧ map amount (transactions w') = [24691; 37037; 61728]
    ∧ balance_of 1 w' = Some 123456.
Proof.
  apply (distinct_notifications_add_up Scenario.platform Cases.three
           Scenario.seeded
           (mkAccount 1 "996700650835" "Dan Kerimdzhanov" active 0)
           "996700650835").
  - apply seeded_consistent.
  - reflexivity.
  - left.
  - reflexivity.
  - reflexivity.
  - repeat constructor; simpl; try lia; by eexists.
  - by refine (bool_decide_unpack _ _).
  - repeat constructor.
  - simpl. lia.
Defined.

Lemma connection_string_settings_witness :
  Config.conString Cases.settings ∅
  = Some "postgres://umai@undefined/umai_payment_receiver_dev".
Proof.
  apply (proj1 (proj2 (connection_string_settings Cases.settings ∅
                         "umai" "umai_payment_receiver_dev"
                         eq_refl eq_refl)) "PGHOST").
  - reflexivity.
  - reflexivity.
  - discriminate.
  - reflexivity.
Defined.
